(** * Password generator: generator and history store

    A shallow embedding of [src/App.tsx]: the password generator
    ([getRandomInt], [generatePassword]), the history store
    ([pruneOldPasswords], [sortByNewest], [loadHistory], [saveHistory]) and
    the event handlers of the [App] component ([handleGenerate],
    [handleDelete], [handleLengthChange]).

    What the browser provides (the [Date] parser, [JSON], the random sources,
    the clock) is not part of the program; it enters the model as the
    operations of a [Host] and as explicit inputs of the handlers. *)

From Stdlib Require Import ZArith List String Ascii Bool Lia Permutation Sorted.
From Stdlib Require Import SpecFloat.
From stdpp Require Import gmap strings.

Import ListNotations.
Local Open Scope string_scope.
Local Open Scope Z_scope.

(** ** JavaScript numbers that may be NaN *)

(** The numbers the program computes with are integers (time values in
    milliseconds, lengths, indices) or [NaN].  They are doubles in the
    program; the integers that occur are small enough to be exact, except
    the difference of two time values far apart, which may be rounded but
    keeps its sign, and only the sign is used. *)
Inductive jsnum : Type :=
  | Num (z : Z)
  | NaN.

(** [a - b] on numbers: [NaN] is absorbing. *)
Definition jssub (a b : jsnum) : jsnum :=
  match a, b with
  | Num x, Num y => Num (x - y)
  | _, _ => NaN
  end.

(** ** The host environment *)

Record PasswordEntry : Type := mkEntry {
  id : string;
  value : string;
  createdAt : string  (* ISO string *)
}.

(** [Date_getTime s] is [new Date(s).getTime()]: the time value in
    milliseconds, or [NaN] for a string the parser rejects.
    [JSON_stringify] and [JSON_parse] are the two JSON functions at the type
    the program uses them at ([PasswordEntry[]]); [JSON_parse] is [None] when
    the call throws, or when the text is not an array of entries and the
    code that follows throws on it: [loadHistory] catches both. *)
Class Host : Type := {
  Date_getTime : string -> jsnum;
  JSON_stringify : list PasswordEntry -> string;
  JSON_parse : string -> option (list PasswordEntry)
}.

(** ** Constants *)

Definition STORAGE_KEY : string := "password-generator:history".
Definition MAX_AGE_MS : Z := 30 * 24 * 60 * 60 * 1000.

Definition UPPERCASE : string := "ABCDEFGHIJKLMNOPQRSTUVWXYZ".
Definition LOWERCASE : string := "abcdefghijklmnopqrstuvwxyz".
Definition NUMBERS : string := "0123456789".
Definition SYMBOLS : string := "!@#$%^&*()_+[]{}|;:,.<>?".

(** ** History store *)

Section HistoryStore.
Context {host : Host}.

(** The predicate of the [filter] in [pruneOldPasswords]; [now] is the
    value of [Date.now()] read at the start of the call, and the [NaN] case
    is the test [Number.isNaN(ts)]. *)
Definition keepEntry (now : Z) (entry : PasswordEntry) : bool :=
  match Date_getTime (createdAt entry) with
  | NaN => false
  | Num ts => now - ts <=? MAX_AGE_MS
  end.

Definition pruneOldPasswords (now : Z) (entries : list PasswordEntry)
  : list PasswordEntry :=
  List.filter (keepEntry now) entries.

(** The comparator handed to [sort]:
    [new Date(b.createdAt).getTime() - new Date(a.createdAt).getTime()]. *)
Definition byNewest (a b : PasswordEntry) : jsnum :=
  jssub (Date_getTime (createdAt b)) (Date_getTime (createdAt a)).

End HistoryStore.

(** ** [Array.prototype.sort]

    The sort of the host is stable, and with a consistent comparator its
    result is the one stable sorted arrangement; it is modelled by the stable
    insertion sort.  A comparator result [v > 0] puts the first argument
    after the second, and [NaN] counts as [+0]. *)

Section ArraySort.
Context {A : Type} (comparefn : A -> A -> jsnum).

Definition comesAfter (x y : A) : bool :=
  match comparefn x y with
  | Num v => 0 <? v
  | NaN => false
  end.

Fixpoint sortedInsert (x : A) (l : list A) : list A :=
  match l with
  | [] => [x]
  | y :: l' => if comesAfter x y then y :: sortedInsert x l' else x :: l
  end.

Definition Array_sort (l : list A) : list A :=
  fold_right sortedInsert [] l.
End ArraySort.

(** ** Loading and saving *)

Section Persistence.
Context {host : Host}.

Definition sortByNewest (entries : list PasswordEntry) : list PasswordEntry :=
  Array_sort byNewest entries.

(** [localStorage] is a map from keys to strings; [getItem] of an absent
    key is [null], and [setItem] overwrites.  [now] is the [Date.now()] of
    the prune. *)
Definition loadHistory (localStorage : gmap string string) (now : Z)
  : list PasswordEntry :=
  match localStorage !! STORAGE_KEY with
  | None => []
  | Some raw =>
      if String.eqb raw EmptyString then []
      else match JSON_parse raw with
           | Some parsed => sortByNewest (pruneOldPasswords now parsed)
           | None => []
           end
  end.

Definition saveHistory (entries : list PasswordEntry)
    (localStorage : gmap string string) : gmap string string :=
  <[STORAGE_KEY := JSON_stringify entries]> localStorage.
End Persistence.

(** ** Random sources *)

(** A double in the interval from 0 to 1, as [Math.random()] returns it,
    written exactly as [mant / 2 ^ expo]. *)
Record double : Type := mkDouble { mant : Z; expo : Z }.

Definition unitDouble (r : double) : bool :=
  (0 <=? mant r) && (mant r <? 2 ^ 53) && (mant r <? 2 ^ expo r)
  && (0 <=? expo r) && (expo r <=? 1074).

(** Rounding of a natural number to 53 significant bits, to nearest and ties
    to even: what a double multiplication does to the exact product. *)
Definition round53 (n : Z) : Z :=
  let k := Z.log2 n - 52 in
  if k <=? 0 then n
  else
    let q := n / 2 ^ k in
    let rest := n mod 2 ^ k in
    let half := 2 ^ (k - 1) in
    let up := (half <? rest) || ((rest =? half) && Z.odd q) in
    (if up then q + 1 else q) * 2 ^ k.

(** [Math.floor(r * max)] for a double [r] and an integer [max]. *)
Definition floorMul (r : double) (max : Z) : Z :=
  let n := mant r * max in
  (Z.sgn n * round53 (Z.abs n)) / 2 ^ expo r.

(** The same number through the binary64 operations of [SpecFloat], against
    which [floorMul] is tested below: the two operands as floats, their
    product by [SFmul], and the floor of the result. *)
Definition floorOfFloat (x : spec_float) : option Z :=
  match x with
  | S754_zero _ => Some 0
  | S754_finite s m e =>
      let v := if s then Z.neg m else Z.pos m in
      Some (if 0 <=? e then v * 2 ^ e else v / 2 ^ (- e))
  | S754_infinity _ | S754_nan => None
  end.

Definition floorMulIEEE (r : double) (max : Z) : option Z :=
  floorOfFloat
    (SFmul 53 1024
       (binary_normalize 53 1024 (mant r) (- expo r) false)
       (binary_normalize 53 1024 max 0 false)).

(** One call of [getRandomInt] consumes one draw of the host: either
    [window.crypto.getRandomValues] is there and fills the [Uint32Array]
    with a word, or [Math.random()] gives a double. *)
Inductive draw : Type :=
  | CryptoWord (w : Z)
  | MathRandom (r : double).

Definition tape : Type := nat -> draw.

Definition Rand (A : Type) : Type := tape -> A * tape.

Definition ret {A : Type} (a : A) : Rand A := fun t => (a, t).

Definition bind {A B : Type} (m : Rand A) (k : A -> Rand B) : Rand B :=
  fun t => let (a, t') := m t in k a t'.

Notation "'let*' x ':=' m 'in' k" := (bind m (fun x => k))
  (at level 10, x name, m at level 100, k at level 200).

Definition nextDraw : Rand draw :=
  fun t => (t 0%nat, fun n => t (S n)).

(** A store into a [Uint32Array] keeps the low 32 bits. *)
Definition toUint32 (w : Z) : Z := w mod 2 ^ 32.

(** [a % b] on integers: the remainder has the sign of [a], and [b = 0]
    gives [NaN]. *)
Definition jsrem (a b : Z) : jsnum :=
  if b =? 0 then NaN else Num (Z.rem a b).

Definition getRandomInt (max : Z) : Rand jsnum :=
  let* d := nextDraw in
  ret (match d with
       | CryptoWord w => let arr0 := toUint32 w in jsrem arr0 max
       | MathRandom r => Num (floorMul r max)
       end).

(** ** The generator *)

Module Opts.
(** The argument of [generatePassword]; [length] is an integer, as the
    options of the specification have it. *)
Record t : Type := mk {
  length : Z;
  useUppercase : bool;
  useLowercase : bool;
  useNumbers : bool;
  useSymbols : bool
}.
End Opts.

Inductive result (A : Type) : Type :=
  | Ok (a : A)
  | Throw (message : string).
Arguments Ok {A} a.
Arguments Throw {A} message.

(** [pools] after the four conditional [push]es. *)
Definition selectedPools (opts : Opts.t) : list string :=
  let pools : list string := [] in
  let pools := if Opts.useUppercase opts then (pools ++ [UPPERCASE])%list else pools in
  let pools := if Opts.useLowercase opts then (pools ++ [LOWERCASE])%list else pools in
  let pools := if Opts.useNumbers opts then (pools ++ [NUMBERS])%list else pools in
  let pools := if Opts.useSymbols opts then (pools ++ [SYMBOLS])%list else pools in
  pools.

(** [s[idx]]: [undefined] outside the string. *)
Definition charAt (s : string) (idx : jsnum) : option ascii :=
  match idx with
  | Num i => if i <? 0 then None else String.get (Z.to_nat i) s
  | NaN => None
  end.

(** [password += c], where an [undefined] is appended as its name. *)
Definition appendChar (password : string) (c : option ascii) : string :=
  match c with
  | Some c => password ++ String c EmptyString
  | None => password ++ "undefined"
  end.

(** The [for] loop, by the number of iterations left: for an integer
    [length] the body runs [Z.to_nat length] times, not at all when
    [length <= 0]. *)
Fixpoint drawChars (n : nat) (all : string) (password : string) : Rand string :=
  match n with
  | O => ret password
  | S n' =>
      let* idx := getRandomInt (Z.of_nat (String.length all)) in
      drawChars n' all (appendChar password (charAt all idx))
  end.

Definition generatePassword (opts : Opts.t) : Rand (result string) :=
  let pools := selectedPools opts in
  if (List.length pools =? 0)%nat
  then ret (Throw "Select at least one character type.")
  else
    let all := String.concat EmptyString pools in
    let* password := drawChars (Z.to_nat (Opts.length opts)) all EmptyString in
    ret (Ok password).

(** ** The [App] component: state and handlers *)

Module App.
(** The state of the component.  [options] holds the five state variables
    [useUppercase], [useLowercase], [useNumbers], [useSymbols] and
    [length], which [handleGenerate] passes on as they are; [error] is
    [None] for [null]. *)
Record State : Type := mk {
  options : Opts.t;
  currentPassword : string;
  error : option string;
  history : list PasswordEntry
}.

(** What one call of [handleGenerate] reads from the host. *)
Record GenerateEnv : Type := mkEnv {
  random : tape;          (* the draws of [generatePassword] *)
  isoNow : string;        (* [new Date().toISOString()] *)
  idRandom : string;      (* [Math.random().toString(36)] *)
  dateNow : Z             (* [Date.now()] in [pruneOldPasswords] *)
}.
End App.

(** [s.slice(from, to)] for [0 <= from <= to]. *)
Definition slice (from to : nat) (s : string) : string :=
  String.substring from (to - from) s.

Definition setLength (n : Z) (o : Opts.t) : Opts.t :=
  Opts.mk n (Opts.useUppercase o) (Opts.useLowercase o)
    (Opts.useNumbers o) (Opts.useSymbols o).

Section Handlers.
Context {host : Host}.

(** The initial state: the defaults of the [useState] calls, and the
    history loaded from storage unless there is no [window]. *)
Definition initialState (hasWindow : bool)
    (localStorage : gmap string string) (now : Z) : App.State :=
  App.mk (Opts.mk 16 true true true true) EmptyString None
    (if hasWindow then loadHistory localStorage now else []).

(** The id of the template literal, from the timestamp [now]. *)
Definition newId (now : string) (env : App.GenerateEnv) : string :=
  now ++ "-" ++ slice 2 8 (App.idRandom env).

Definition newEntry (env : App.GenerateEnv) (pwd : string) : PasswordEntry :=
  let now := App.isoNow env in
  mkEntry (newId now env) pwd now.

Definition handleGenerate (env : App.GenerateEnv) (s : App.State) : App.State :=
  match fst (generatePassword (App.options s) (App.random env)) with
  | Ok pwd =>
      let next :=
        sortByNewest
          (pruneOldPasswords (App.dateNow env) (newEntry env pwd :: App.history s)) in
      App.mk (App.options s) pwd None next
  | Throw message =>
      App.mk (App.options s) (App.currentPassword s) (Some message) (App.history s)
  end.

Definition handleDelete (id0 : string) (s : App.State) : App.State :=
  App.mk (App.options s) (App.currentPassword s) (App.error s)
    (List.filter (fun entry => negb (String.eqb (id entry) id0)) (App.history s)).

(** [value] is [Number(e.target.value)], an integer or [NaN]. *)
Definition handleLengthChange (value : jsnum) (s : App.State) : App.State :=
  match value with
  | NaN => s
  | Num v =>
      let clamped := Z.min 64 (Z.max 4 v) in
      App.mk (setLength clamped (App.options s)) (App.currentPassword s)
        (App.error s) (App.history s)
  end.

(** The four checkboxes: [setUseUppercase(e.target.checked)] and so on. *)
Inductive checkbox : Type := Uppercase | Lowercase | Numbers | Symbols.

Definition handleCheck (which : checkbox) (checked : bool) (s : App.State)
  : App.State :=
  let o := App.options s in
  let o' :=
    match which with
    | Uppercase => Opts.mk (Opts.length o) checked (Opts.useLowercase o)
                     (Opts.useNumbers o) (Opts.useSymbols o)
    | Lowercase => Opts.mk (Opts.length o) (Opts.useUppercase o) checked
                     (Opts.useNumbers o) (Opts.useSymbols o)
    | Numbers => Opts.mk (Opts.length o) (Opts.useUppercase o)
                   (Opts.useLowercase o) checked (Opts.useSymbols o)
    | Symbols => Opts.mk (Opts.length o) (Opts.useUppercase o)
                   (Opts.useLowercase o) (Opts.useNumbers o) checked
    end in
  App.mk o' (App.currentPassword s) (App.error s) (App.history s).

(** The user actions. *)
Inductive event : Type :=
  | Generate (env : App.GenerateEnv)
  | Delete (id0 : string)
  | LengthChange (value : jsnum)
  | Check (which : checkbox) (checked : bool).

Definition handle (ev : event) (s : App.State) : App.State :=
  match ev with
  | Generate env => handleGenerate env s
  | Delete id0 => handleDelete id0 s
  | LengthChange value => handleLengthChange value s
  | Check which checked => handleCheck which checked s
  end.

(** The state after a sequence of events, the first event first; each
    handler runs in the render that follows the previous event, and so sees
    the state that event left. *)
Definition run (evs : list event) (s : App.State) : App.State :=
  fold_left (fun s ev => handle ev s) evs s.
End Handlers.

(** ** A reference host

    One host on which the model can be run: dates in the format of
    [toISOString] ([YYYY-MM-DDTHH:mm:ss.sssZ]), and JSON in the compact
    layout that [JSON.stringify] writes for an array of entries. *)

Module RefHost.

(** The quotation mark and the backslash. *)
Definition dquote : ascii := "034"%char.
Definition bslash : ascii := "092"%char.

Definition digit (c : ascii) : option Z :=
  let n := Z.of_nat (nat_of_ascii c) - 48 in
  if (0 <=? n) && (n <=? 9) then Some n else None.

(** The decimal number written by [s], all of whose characters are digits. *)
Fixpoint number (acc : Z) (s : list ascii) : option Z :=
  match s with
  | [] => Some acc
  | c :: s' =>
      match digit c with
      | Some d => number (10 * acc + d) s'
      | None => None
      end
  end.

Definition isLeap (y : Z) : bool :=
  ((y mod 4 =? 0) && negb (y mod 100 =? 0)) || (y mod 400 =? 0).

Definition daysInMonth (y m : Z) : Z :=
  if m =? 2 then (if isLeap y then 29 else 28)
  else if (m =? 4) || (m =? 6) || (m =? 9) || (m =? 11) then 30 else 31.

(** Days from 1970-01-01 to the given date of the Gregorian calendar. *)
Definition daysFromCivil (y m d : Z) : Z :=
  let y' := if m <=? 2 then y - 1 else y in
  let era := y' / 400 in
  let yoe := y' - era * 400 in
  let doy := (153 * (if 2 <? m then m - 3 else m + 9) + 2) / 5 + d - 1 in
  let doe := yoe * 365 + yoe / 4 - yoe / 100 + doy in
  era * 146097 + doe - 719468.

Definition field (from len : nat) (s : string) : option Z :=
  number 0 (list_ascii_of_string (String.substring from len s)).

Definition sepAt (n : nat) (c : ascii) (s : string) : bool :=
  match String.get n s with
  | Some c' => Ascii.eqb c c'
  | None => false
  end.

Definition parseISO (s : string) : jsnum :=
  if negb ((String.length s =? 24)%nat
           && sepAt 4 "-" s && sepAt 7 "-" s && sepAt 10 "T" s
           && sepAt 13 ":" s && sepAt 16 ":" s && sepAt 19 "." s
           && sepAt 23 "Z" s)
  then NaN
  else
    match field 0 4 s, field 5 2 s, field 8 2 s,
          field 11 2 s, field 14 2 s, field 17 2 s, field 20 3 s with
    | Some y, Some m, Some d, Some hh, Some mm, Some ss, Some ms =>
        if (1 <=? m) && (m <=? 12) && (1 <=? d) && (d <=? daysInMonth y m)
           && (hh <=? 23) && (mm <=? 59) && (ss <=? 59)
        then Num ((((daysFromCivil y m d * 24 + hh) * 60 + mm) * 60 + ss) * 1000 + ms)
        else NaN
    | _, _, _, _, _, _, _ => NaN
    end.

(** *** JSON *)

Definition hexDigit (n : nat) : ascii :=
  if (n <? 10)%nat then ascii_of_nat (48 + n) else ascii_of_nat (87 + n).

Definition hexValue (c : ascii) : option nat :=
  let n := nat_of_ascii c in
  if (48 <=? n)%nat && (n <=? 57)%nat then Some (n - 48)%nat
  else if (97 <=? n)%nat && (n <=? 102)%nat then Some (n - 87)%nat
  else None.

Definition escapeChar (c : ascii) : list ascii :=
  let n := nat_of_ascii c in
  if (n =? 34)%nat then [bslash; dquote]
  else if (n =? 92)%nat then [bslash; bslash]
  else if (n <? 32)%nat then
    [bslash; "u"%char; "0"%char; "0"%char; hexDigit (n / 16); hexDigit (n mod 16)]
  else [c].

Definition quote (s : string) : list ascii :=
  ([dquote] ++ flat_map escapeChar (list_ascii_of_string s) ++ [dquote])%list.

Definition key (k : string) : list ascii :=
  ([dquote] ++ list_ascii_of_string k ++ [dquote; ":"%char])%list.

Definition writeEntry (e : PasswordEntry) : list ascii :=
  (["{"%char] ++ key "id" ++ quote (id e) ++ [","%char]
     ++ key "value" ++ quote (value e) ++ [","%char]
     ++ key "createdAt" ++ quote (createdAt e) ++ ["}"%char])%list.

Fixpoint writeEntries (l : list PasswordEntry) : list ascii :=
  match l with
  | [] => []
  | [e] => writeEntry e
  | e :: l' => (writeEntry e ++ [","%char] ++ writeEntries l')%list
  end.

Definition stringify (l : list PasswordEntry) : string :=
  string_of_list_ascii (["["%char] ++ writeEntries l ++ ["]"%char])%list.

(** Reads the characters of a string literal after its opening quote;
    returns the string and what follows the closing quote. *)
Fixpoint readChars (acc : list ascii) (s : list ascii)
  : option (string * list ascii) :=
  match s with
  | [] => None
  | c :: s' =>
      if Ascii.eqb c dquote then Some (string_of_list_ascii (rev acc), s')
      else if Ascii.eqb c bslash then
        match s' with
        | e :: s'' =>
            if Ascii.eqb e dquote || Ascii.eqb e bslash || Ascii.eqb e "/"
            then readChars (e :: acc) s''
            else if Ascii.eqb e "u" then
              match s'' with
              | "0"%char :: "0"%char :: h :: l :: s3 =>
                  match hexValue h, hexValue l with
                  | Some a, Some b => readChars (ascii_of_nat (16 * a + b) :: acc) s3
                  | _, _ => None
                  end
              | _ => None
              end
            else None
        | [] => None
        end
      else readChars (c :: acc) s'
  end.

(** Drops the prefix [p] of [s], if it is one. *)
Fixpoint expect (p s : list ascii) : option (list ascii) :=
  match p, s with
  | [], _ => Some s
  | a :: p', b :: s' => if Ascii.eqb a b then expect p' s' else None
  | _ :: _, [] => None
  end.

Definition readField (k : string) (s : list ascii) : option (string * list ascii) :=
  match expect (key k ++ [dquote])%list s with
  | Some s' => readChars [] s'
  | None => None
  end.

Definition readEntry (s : list ascii) : option (PasswordEntry * list ascii) :=
  match expect ["{"%char] s with
  | None => None
  | Some s0 =>
      match readField "id" s0 with
      | None => None
      | Some (i, s1) =>
          match expect [","%char] s1 with
          | None => None
          | Some s1' =>
              match readField "value" s1' with
              | None => None
              | Some (v, s2) =>
                  match expect [","%char] s2 with
                  | None => None
                  | Some s2' =>
                      match readField "createdAt" s2' with
                      | None => None
                      | Some (c, s3) =>
                          match expect ["}"%char] s3 with
                          | Some s4 => Some (mkEntry i v c, s4)
                          | None => None
                          end
                      end
                  end
              end
          end
      end
  end.

(** The entries up to the closing bracket, which must end the text. *)
Fixpoint readEntries (fuel : nat) (s : list ascii) : option (list PasswordEntry) :=
  match fuel with
  | O => None
  | S fuel' =>
      match readEntry s with
      | None => None
      | Some (e, s') =>
          match s' with
          | ["]"%char] => Some [e]
          | ","%char :: s'' =>
              match readEntries fuel' s'' with
              | Some l => Some (e :: l)
              | None => None
              end
          | _ => None
          end
      end
  end.

Definition parse (raw : string) : option (list PasswordEntry) :=
  match list_ascii_of_string raw with
  | ["["%char; "]"%char] => Some []
  | "["%char :: s => readEntries (String.length raw) s
  | _ => None
  end.

Definition host : Host :=
  {| Date_getTime := parseISO; JSON_stringify := stringify; JSON_parse := parse |}.

End RefHost.

(** ** Vocabulary of the statements *)

Section Vocabulary.
Context {host : Host}.

(** A collection that [loadHistory] returned, or that a successful
    [handleGenerate] stored as the new history. *)
Inductive loadedOrAppended : list PasswordEntry -> Prop :=
  | fromLoad (localStorage : gmap string string) (now : Z) :
      loadedOrAppended (loadHistory localStorage now)
  | fromAppend (env : App.GenerateEnv) (s : App.State) (pwd : string) :
      fst (generatePassword (App.options s) (App.random env)) = Ok pwd ->
      loadedOrAppended (App.history (handleGenerate env s)).

(** The entry's [createdAt] parses. *)
Definition parses (e : PasswordEntry) : Prop :=
  exists ts, Date_getTime (createdAt e) = Num ts.

(** The time value of an entry whose [createdAt] parses. *)
Definition timeOf (e : PasswordEntry) : Z :=
  match Date_getTime (createdAt e) with Num t => t | NaN => 0 end.

(** The ids of what storage holds are pairwise distinct. *)
Definition storedIdsDistinct (localStorage : gmap string string) : Prop :=
  match localStorage !! STORAGE_KEY with
  | Some raw =>
      match JSON_parse raw with
      | Some parsed => List.NoDup (map id parsed)
      | None => True
      end
  | None => True
  end.

(** Every [Generate] of the run makes an id that the history it is added
    to does not hold yet. *)
Fixpoint freshIds (evs : list event) (s : App.State) : Prop :=
  match evs with
  | [] => True
  | ev :: evs' =>
      match ev with
      | Generate env => ~ In (newId (App.isoNow env) env) (map id (App.history s))
      | _ => True
      end
      /\ freshIds evs' (handle ev s)
  end.
End Vocabulary.

(** The alphabet of the specification: the enabled class constants in the
    order uppercase, lowercase, digits, symbols. *)
Definition alphabet (opts : Opts.t) : string :=
  (if Opts.useUppercase opts then UPPERCASE else EmptyString)
  ++ (if Opts.useLowercase opts then LOWERCASE else EmptyString)
  ++ (if Opts.useNumbers opts then NUMBERS else EmptyString)
  ++ (if Opts.useSymbols opts then SYMBOLS else EmptyString).

Definition anyClass (opts : Opts.t) : bool :=
  Opts.useUppercase opts || Opts.useLowercase opts
  || Opts.useNumbers opts || Opts.useSymbols opts.

(** Every [Math.random()] of the tape is a double of the unit interval. *)
Definition tapeOk (t : tape) : Prop :=
  forall n, match t n with
            | CryptoWord _ => True
            | MathRandom r => unitDouble r = true
            end.

(** Counting the values [0], [1], ... that [f] sends to [true]: one step
    takes the count so far and the next value to look at. *)
Definition countStep (f : Z -> bool) (a : Z * Z) : Z * Z :=
  (fst a + (if f (snd a) then 1 else 0), snd a + 1).

(** The number of values [w] with [0 <= w < n] that [f] sends to [true]. *)
Definition countBelow (f : Z -> bool) (n : N) : Z :=
  fst (N.iter n (countStep f) (0, 0)).

(** The number of 32-bit words. *)
Definition wordCount : N := 4294967296%N.

(** The number of 32-bit words for which the strong branch of
    [getRandomInt max] returns the index [i]. *)
Definition wordsGiving (max i : Z) : Z :=
  countBelow
    (fun w => match fst (getRandomInt max (fun _ => CryptoWord w)) with
              | Num r => r =? i
              | NaN => false
              end)
    wordCount.

(** The draws of the strong source are uniform over the indices of the
    alphabet of [opts]: every index is hit by the same number of words. *)
Definition uniformIndex (opts : Opts.t) : Prop :=
  let max := Z.of_nat (String.length (alphabet opts)) in
  forall i j, 0 <= i < max -> 0 <= j < max -> wordsGiving max i = wordsGiving max j.

(** ** The persistence effect *)

Section Effects.
Context {host : Host}.

(** The body of the effect, [saveHistory(history)] unless there is no
    [window].  A write that the store refuses is not modelled. *)
Definition persistEffect (hasWindow : bool) (s : App.State)
    (localStorage : gmap string string) : gmap string string :=
  if hasWindow then saveHistory (App.history s) localStorage else localStorage.

(** Whether the handler of the event calls [setHistory].  It does so with a
    new array ([sortByNewest] copies, [filter] builds one), so the effect,
    whose dependency is [history], runs after exactly these events. *)
Definition setsHistory (ev : event) (s : App.State) : bool :=
  match ev with
  | Generate env =>
      match fst (generatePassword (App.options s) (App.random env)) with
      | Ok _ => true
      | Throw _ => false
      end
  | Delete _ => true
  | LengthChange _ => false
  | Check _ _ => false
  end.

(** The first render: the initial state, and the effect after it. *)
Definition mount (hasWindow : bool) (localStorage : gmap string string) (now : Z)
  : App.State * gmap string string :=
  let s := initialState hasWindow localStorage now in
  (s, persistEffect hasWindow s localStorage).

(** One event: the handler, the render, and the effect when [history]
    changed. *)
Definition dispatch (hasWindow : bool) (ev : event)
    (w : App.State * gmap string string) : App.State * gmap string string :=
  let s' := handle ev (fst w) in
  (s', if setsHistory ev (fst w) then persistEffect hasWindow s' (snd w) else snd w).

Definition runWorld (hasWindow : bool) (evs : list event)
    (w : App.State * gmap string string) : App.State * gmap string string :=
  fold_left (fun w ev => dispatch hasWindow ev w) evs w.

(** The history is ordered newest first, and every [createdAt] parses. *)
Definition newestFirst (h : list PasswordEntry) : Prop :=
  StronglySorted (fun a b => timeOf b <= timeOf a) h /\ List.Forall parses h.

(** The store holds the text of the history, and the other keys are those
    of [base]. *)
Definition mirrors (base : gmap string string)
    (w : App.State * gmap string string) : Prop :=
  snd w !! STORAGE_KEY = Some (JSON_stringify (App.history (fst w)))
  /\ forall key, key <> STORAGE_KEY -> snd w !! key = base !! key.
End Effects.

(** Every id of the history was made from one of the timestamps [used]. *)
Definition idsFrom (used : list string) (h : list PasswordEntry) : Prop :=
  forall i, In i (map id h) ->
            exists stamp suffix, i = stamp ++ "-" ++ suffix /\ In stamp used.


(** [c] is one of the characters of [s]. *)
Definition memberOf (c : ascii) (s : string) : bool :=
  existsb (Ascii.eqb c) (list_ascii_of_string s).

(** The timestamps that the [Generate] events of a run read. *)
Fixpoint stamps (evs : list event) : list string :=
  match evs with
  | [] => []
  | Generate env :: evs' => App.isoNow env :: stamps evs'
  | _ :: evs' => stamps evs'
  end.

(** ** Sample data *)

Module Sample.
(** 2026-11-02T00:00:00.000Z *)
Definition now : Z := 1793577600000.

(** Created 30 days and one second before [now]. *)
Definition expired : PasswordEntry :=
  mkEntry "2026-10-02T23:59:59.000Z-k3x9qa" "Qw7!" "2026-10-02T23:59:59.000Z".

(** Created 29 days and 23 hours before [now]. *)
Definition recent : PasswordEntry :=
  mkEntry "2026-10-03T01:00:00.000Z-0zt41b" "hunter" "2026-10-03T01:00:00.000Z".

(** Created 12 hours before [now]. *)
Definition latest : PasswordEntry :=
  mkEntry "2026-11-01T12:00:00.000Z-m2" "T0p/S3" "2026-11-01T12:00:00.000Z".

(** A tape that alternates between the two random sources. *)
Definition draws (seed : Z) : tape :=
  fun n =>
    let x := Z.of_nat n + seed in
    if Nat.even n
    then CryptoWord (x * 2654435761 + 11)
    else MathRandom (mkDouble ((x * 6364136223846793005) mod 2 ^ 53) 53).

(** Two calls of [handleGenerate] within one millisecond, whose
    [Math.random()] values agree in the six digits that the id keeps. *)
Definition envA : App.GenerateEnv :=
  App.mkEnv (draws 17) "2026-11-01T12:00:00.000Z" "0.4fzyo82mvyr" 1793534400003.
Definition envB : App.GenerateEnv :=
  App.mkEnv (draws 4242) "2026-11-01T12:00:00.000Z" "0.4fzyo8kq01c" 1793534400004.

(** A call in another millisecond. *)
Definition envC : App.GenerateEnv :=
  App.mkEnv (draws 99) "2026-11-01T12:00:07.250Z" "0.4fzyo82mvyr" 1793534407251.

(** The time at which the history is first loaded. *)
Definition startup : Z := 1793534000000.

Definition allClasses (n : Z) : Opts.t := Opts.mk n true true true true.
Definition upperOnly (n : Z) : Opts.t := Opts.mk n true false false false.
Definition noClass (n : Z) : Opts.t := Opts.mk n false false false false.

Definition stateWith (o : Opts.t) (h : list PasswordEntry) : App.State :=
  App.mk o "previous" None h.
End Sample.

(** * Properties *)

(** ** Pruning *)

Section PruneFacts.
Context {host : Host}.

Lemma keepEntry_true (now : Z) (e : PasswordEntry) :
  keepEntry now e = true <->
  exists ts, Date_getTime (createdAt e) = Num ts /\ now - ts <= MAX_AGE_MS.
Proof.
  unfold keepEntry. destruct (Date_getTime (createdAt e)) as [ts|].
  - rewrite Z.leb_le. split.
    + intros Hle. exists ts. auto.
    + intros (ts' & Heq & Hle). injection Heq as ->. exact Hle.
  - split; [discriminate | intros (ts & Heq & _); discriminate].
Qed.

Lemma prune_In (now : Z) (entries : list PasswordEntry) (e : PasswordEntry) :
  In e (pruneOldPasswords now entries) <-> In e entries /\ keepEntry now e = true.
Proof. unfold pruneOldPasswords. apply filter_In. Qed.

Lemma prune_valid (now : Z) (entries : list PasswordEntry) :
  Forall parses (pruneOldPasswords now entries).
Proof.
  apply List.Forall_forall. intros e He. apply prune_In in He as [_ Hk].
  apply keepEntry_true in Hk as (ts & Hts & _). exists ts. exact Hts.
Qed.

(** C6: pruning is idempotent.  Pruning an already pruned list, with the
    same value of [Date.now()], gives the same list. *)
Theorem prune_idempotent (now : Z) (entries : list PasswordEntry) :
  pruneOldPasswords now (pruneOldPasswords now entries)
  = pruneOldPasswords now entries.
Proof.
  unfold pruneOldPasswords.
  induction entries as [|e entries IH]; simpl; [reflexivity|].
  destruct (keepEntry now e) eqn:Hk; simpl; [rewrite Hk, IH|]; auto.
Qed.

(** C3: an entry is kept by the prune exactly when its [createdAt] parses
    to an instant [ts] with [now - ts <= 30 days] (inclusive); an entry
    whose [createdAt] does not parse is dropped; an entry 30 days and one
    second old is removed and one 29 days and 23 hours old is kept. *)
Theorem prune_keeps_iff (now : Z) (entries : list PasswordEntry) :
  (forall e, In e (pruneOldPasswords now entries) <->
             In e entries /\
             exists ts, Date_getTime (createdAt e) = Num ts
                        /\ now - ts <= 30 * 24 * 60 * 60 * 1000)
  /\ (forall e, Date_getTime (createdAt e) = NaN ->
                ~ In e (pruneOldPasswords now entries))
  /\ (forall e, Date_getTime (createdAt e)
                = Num (now - (30 * 24 * 60 * 60 * 1000 + 1000)) ->
                pruneOldPasswords now [e] = [])
  /\ (forall e, Date_getTime (createdAt e)
                = Num (now - (29 * 24 + 23) * 60 * 60 * 1000) ->
                pruneOldPasswords now [e] = [e]).
Proof.
  split; [|split; [|split]].
  - intros e. rewrite prune_In, keepEntry_true. reflexivity.
  - intros e Hnan Hin. apply prune_In in Hin as [_ Hk].
    unfold keepEntry in Hk. rewrite Hnan in Hk. discriminate.
  - intros e Hts. unfold pruneOldPasswords, keepEntry. simpl. rewrite Hts.
    replace (_ <=? _) with false; [reflexivity|].
    symmetry. apply Z.leb_gt. unfold MAX_AGE_MS. lia.
  - intros e Hts. unfold pruneOldPasswords, keepEntry. simpl. rewrite Hts.
    replace (_ <=? _) with true; [reflexivity|].
    symmetry. apply Z.leb_le. unfold MAX_AGE_MS. lia.
Qed.
End PruneFacts.

(** ** Sorting *)

Section SortFacts.
Context {A : Type} (comparefn : A -> A -> jsnum).

Lemma sortedInsert_perm (x : A) (l : list A) :
  Permutation (sortedInsert comparefn x l) (x :: l).
Proof.
  induction l as [|y l IH]; simpl; [reflexivity|].
  destruct (comesAfter comparefn x y); [|reflexivity].
  rewrite IH. apply perm_swap.
Qed.

Lemma Array_sort_perm (l : list A) : Permutation (Array_sort comparefn l) l.
Proof.
  induction l as [|x l IH]; simpl; [reflexivity|].
  rewrite sortedInsert_perm. apply perm_skip, IH.
Qed.

(** On elements of [P] the comparator orders by the key [k], larger keys
    first. *)
Context (P : A -> Prop) (k : A -> Z).
Hypothesis comparefn_key :
  forall x y, P x -> P y -> comesAfter comparefn x y = (k x <? k y).

Lemma sortedInsert_sorted (x : A) (l : list A) :
  P x -> Forall P l ->
  StronglySorted (fun a b => k b <= k a) l ->
  StronglySorted (fun a b => k b <= k a) (sortedInsert comparefn x l).
Proof.
  intros Px Pl Hs. induction Hs as [|y l Hs IH Hy]; simpl.
  - constructor; [constructor | constructor].
  - inversion Pl as [|? ? Py Pl']; subst.
    rewrite (comparefn_key x y Px Py).
    destruct (k x <? k y) eqn:Hlt.
    + apply Z.ltb_lt in Hlt. constructor; [apply IH; assumption|].
      eapply Permutation_Forall; [symmetry; apply sortedInsert_perm|].
      constructor; [lia | assumption].
    + apply Z.ltb_ge in Hlt. constructor.
      * constructor; assumption.
      * constructor; [exact Hlt|].
        eapply List.Forall_impl; [|exact Hy].
        intros z Hz. simpl in Hz. lia.
Qed.

Lemma Array_sort_sorted (l : list A) :
  Forall P l -> StronglySorted (fun a b => k b <= k a) (Array_sort comparefn l).
Proof.
  induction 1 as [|x l Px Pl IH]; simpl; [constructor|].
  apply sortedInsert_sorted; [assumption| |assumption].
  eapply Permutation_Forall; [symmetry; apply Array_sort_perm | assumption].
Qed.
End SortFacts.

Lemma StronglySorted_nth {A : Type} (R : A -> A -> Prop) (l : list A) :
  StronglySorted R l ->
  forall i j a b, (i < j)%nat -> nth_error l i = Some a -> nth_error l j = Some b ->
                  R a b.
Proof.
  induction 1 as [|x l Hs IH Hx]; intros i j a b Hij Hi Hj.
  - destruct i; discriminate.
  - destruct j as [|j]; [lia|]. simpl in Hj.
    destruct i as [|i]; simpl in Hi.
    + injection Hi as ->. apply nth_error_In in Hj.
      rewrite List.Forall_forall in Hx. apply Hx, Hj.
    + apply (IH i j); [lia | assumption | assumption].
Qed.

Section HistoryFacts.
Context {host : Host}.

Lemma byNewest_key (x y : PasswordEntry) :
  parses x -> parses y -> comesAfter byNewest x y = (timeOf x <? timeOf y).
Proof.
  intros [tx Hx] [ty Hy]. unfold comesAfter, byNewest, timeOf.
  rewrite Hx, Hy. simpl.
  destruct (0 <? ty - tx) eqn:E1, (tx <? ty) eqn:E2; try reflexivity;
    rewrite ?Z.ltb_lt, ?Z.ltb_ge in *; lia.
Qed.

Lemma sortByNewest_perm (entries : list PasswordEntry) :
  Permutation (sortByNewest entries) entries.
Proof. apply Array_sort_perm. Qed.

Lemma sorted_pruned_order (now : Z) (entries : list PasswordEntry) :
  forall i j a b ta tb,
    nth_error (sortByNewest (pruneOldPasswords now entries)) i = Some a ->
    nth_error (sortByNewest (pruneOldPasswords now entries)) j = Some b ->
    Date_getTime (createdAt a) = Num ta ->
    Date_getTime (createdAt b) = Num tb ->
    tb < ta -> (i < j)%nat.
Proof.
  intros i j a b ta tb Hi Hj Ha Hb Hlt.
  pose proof (Array_sort_sorted byNewest parses timeOf byNewest_key
                _ (prune_valid now entries)) as Hs.
  fold (sortByNewest (pruneOldPasswords now entries)) in Hs.
  destruct (Nat.lt_trichotomy i j) as [Hij | [Hij | Hij]]; [exact Hij| |].
  - subst j. rewrite Hi in Hj. injection Hj as ->.
    rewrite Ha in Hb. injection Hb as ->. lia.
  - pose proof (StronglySorted_nth _ _ Hs j i b a Hij Hj Hi) as Hle.
    unfold timeOf in Hle. rewrite Ha, Hb in Hle. lia.
Qed.

(** C4: in a collection that [loadHistory] returned or that the append
    step of [handleGenerate] produced, an entry whose [createdAt] parses to
    a strictly later instant than that of another entry comes before it. *)
Theorem newest_first (l : list PasswordEntry) :
  loadedOrAppended l ->
  forall i j a b ta tb,
    nth_error l i = Some a -> nth_error l j = Some b ->
    Date_getTime (createdAt a) = Num ta ->
    Date_getTime (createdAt b) = Num tb ->
    tb < ta -> (i < j)%nat.
Proof.
  intros [localStorage now | env s pwd Hok] i j a b ta tb Hi Hj.
  - unfold loadHistory in Hi, Hj.
    destruct (localStorage !! STORAGE_KEY) as [raw|];
      [|destruct i; discriminate].
    destruct (String.eqb raw EmptyString); [destruct i; discriminate|].
    destruct (JSON_parse raw) as [parsed|]; [|destruct i; discriminate].
    eapply sorted_pruned_order; eassumption.
  - unfold handleGenerate in Hi, Hj. rewrite Hok in Hi, Hj.
    cbn [App.history] in Hi, Hj.
    eapply sorted_pruned_order; eassumption.
Qed.

(** C5: after [saveHistory entries], [loadHistory] returns the pruned form
    of [entries] up to order: the same entries, each as many times.  The
    host's JSON is assumed to read back what it wrote for [entries], and to
    write a non-empty text. *)
Theorem save_then_load (entries : list PasswordEntry)
    (localStorage : gmap string string) (now : Z) :
  JSON_parse (JSON_stringify entries) = Some entries ->
  JSON_stringify entries <> EmptyString ->
  Permutation (loadHistory (saveHistory entries localStorage) now)
              (pruneOldPasswords now entries)
  /\ forall e, In e (loadHistory (saveHistory entries localStorage) now)
               <-> In e (pruneOldPasswords now entries).
Proof.
  intros Hround Hnonempty.
  assert (Hperm : Permutation (loadHistory (saveHistory entries localStorage) now)
                              (pruneOldPasswords now entries)).
  { unfold loadHistory, saveHistory. rewrite lookup_insert_eq.
    apply String.eqb_neq in Hnonempty. rewrite Hnonempty, Hround.
    apply sortByNewest_perm. }
  split; [exact Hperm|].
  intros e. split; apply Permutation_in; [exact Hperm | symmetry; exact Hperm].
Qed.
End HistoryFacts.

(** ** Deleting, and the ids of the history *)

Lemma filter_In_map_id (f : PasswordEntry -> bool) (l : list PasswordEntry)
    (i : string) :
  In i (map id (List.filter f l)) -> In i (map id l).
Proof.
  rewrite !in_map_iff. intros (e & He & Hin).
  apply filter_In in Hin as [Hin _]. exists e. auto.
Qed.

Lemma NoDup_ids_filter (f : PasswordEntry -> bool) (l : list PasswordEntry) :
  List.NoDup (map id l) -> List.NoDup (map id (List.filter f l)).
Proof.
  induction l as [|e l IH]; simpl; [auto|].
  intros Hnd. apply List.NoDup_cons_iff in Hnd as [Hnotin Hnd].
  destruct (f e); simpl; [|auto].
  apply List.NoDup_cons_iff. split; [|auto].
  intros Hin. apply Hnotin. eapply filter_In_map_id, Hin.
Qed.

Lemma NoDup_ids_perm (l l' : list PasswordEntry) :
  Permutation l l' -> List.NoDup (map id l) -> List.NoDup (map id l').
Proof.
  intros Hp. apply Permutation.Permutation_NoDup, Permutation_map, Hp.
Qed.

Section DeleteFacts.

Lemma removed_In (id0 : string) (l : list PasswordEntry) (e : PasswordEntry) :
  In e (List.filter (fun entry => negb (String.eqb (id entry) id0)) l)
  <-> In e l /\ id e <> id0.
Proof.
  rewrite filter_In, negb_true_iff. rewrite String.eqb_neq. reflexivity.
Qed.

Lemma removed_length (id0 : string) (l : list PasswordEntry) :
  (List.length (List.filter (fun entry => negb (String.eqb (id entry) id0)) l)
   + count_occ string_dec (map id l) id0
   = List.length l)%nat.
Proof.
  induction l as [|e l IH]; simpl; [reflexivity|].
  destruct (string_dec (id e) id0) as [Heq|Hne].
  - apply String.eqb_eq in Heq as Heqb. rewrite Heqb. simpl. lia.
  - apply String.eqb_neq in Hne as Hneb. rewrite Hneb. simpl. lia.
Qed.

Lemma removed_absent (id0 : string) (l : list PasswordEntry) :
  (forall e, In e l -> id e <> id0) ->
  List.filter (fun entry => negb (String.eqb (id entry) id0)) l = l.
Proof.
  induction l as [|e l IH]; simpl; intros Habs; [reflexivity|].
  assert (Hne : id e <> id0) by (apply Habs; auto).
  apply String.eqb_neq in Hne. rewrite Hne. simpl. f_equal. auto.
Qed.

(** C7, as amended: [handleDelete id0] leaves no entry with the id [id0]
    and removes every entry that has it, so the size drops by the number
    of such entries; when the ids of the collection are pairwise distinct
    and [id0] occurs, the size drops by exactly one; when [id0] does not
    occur, the collection is returned as it was. *)
Theorem handleDelete_removes (id0 : string) (s : App.State) :
  (forall e, In e (App.history (handleDelete id0 s)) <->
             In e (App.history s) /\ id e <> id0)
  /\ (List.length (App.history (handleDelete id0 s))
      + count_occ string_dec (map id (App.history s)) id0
      = List.length (App.history s))%nat
  /\ (List.NoDup (map id (App.history s)) ->
      (exists e, In e (App.history s) /\ id e = id0) ->
      S (List.length (App.history (handleDelete id0 s)))
      = List.length (App.history s))
  /\ ((forall e, In e (App.history s) -> id e <> id0) ->
      App.history (handleDelete id0 s) = App.history s).
Proof.
  unfold handleDelete. cbn [App.history].
  split; [|split; [|split]].
  - intros e. apply removed_In.
  - apply removed_length.
  - intros Hnd (e & Hin & Hid).
    pose proof (removed_length id0 (App.history s)) as Hlen.
    assert (Hone : count_occ string_dec (map id (App.history s)) id0 = 1%nat).
    { assert (Hmem : In id0 (map id (App.history s))).
      { apply in_map_iff. exists e. auto. }
      apply (count_occ_In string_dec) in Hmem.
      pose proof (proj1 (List.NoDup_count_occ string_dec _) Hnd id0). lia. }
    lia.
  - apply removed_absent.
Qed.
End DeleteFacts.

Section IdFacts.
Context {host : Host}.

Lemma loadHistory_ids (localStorage : gmap string string) (now : Z) :
  storedIdsDistinct localStorage ->
  List.NoDup (map id (loadHistory localStorage now)).
Proof.
  unfold storedIdsDistinct, loadHistory.
  destruct (localStorage !! STORAGE_KEY) as [raw|]; [|constructor].
  destruct (String.eqb raw EmptyString); [constructor|].
  destruct (JSON_parse raw) as [parsed|]; [|constructor].
  intros Hnd. eapply NoDup_ids_perm; [symmetry; apply sortByNewest_perm|].
  apply NoDup_ids_filter, Hnd.
Qed.

Lemma handle_ids (ev : event) (s : App.State) :
  List.NoDup (map id (App.history s)) ->
  match ev with
  | Generate env => ~ In (newId (App.isoNow env) env) (map id (App.history s))
  | _ => True
  end ->
  List.NoDup (map id (App.history (handle ev s))).
Proof.
  intros Hnd Hfresh. destruct ev as [env | id0 | [v|] | which checked]; simpl.
  - unfold handleGenerate.
    destruct (fst (generatePassword (App.options s) (App.random env)))
      as [pwd | message]; cbn [App.history]; [|exact Hnd].
    eapply NoDup_ids_perm; [symmetry; apply sortByNewest_perm|].
    apply NoDup_ids_filter. simpl. apply List.NoDup_cons_iff. split; assumption.
  - apply NoDup_ids_filter, Hnd.
  - exact Hnd.
  - exact Hnd.
  - exact Hnd.
Qed.

Lemma run_ids (evs : list event) (s : App.State) :
  List.NoDup (map id (App.history s)) -> freshIds evs s ->
  List.NoDup (map id (App.history (run evs s))).
Proof.
  revert s. induction evs as [|ev evs IH]; intros s Hnd Hfresh; [exact Hnd|].
  destruct Hfresh as [Hev Hrest]. unfold run. simpl.
  apply IH; [apply handle_ids; assumption | exact Hrest].
Qed.

(** C8, as amended: the ids of the history stay pairwise distinct along
    every run in which the ids held by storage are pairwise distinct and
    every id that [handleGenerate] makes differs from the ids already in
    the history; the program itself does not compare ids. *)
Theorem ids_stay_distinct (hasWindow : bool)
    (localStorage : gmap string string) (now : Z) (evs : list event) :
  storedIdsDistinct localStorage ->
  freshIds evs (initialState hasWindow localStorage now) ->
  List.NoDup
    (map id (App.history (run evs (initialState hasWindow localStorage now)))).
Proof.
  intros Hstored Hfresh. apply run_ids; [|exact Hfresh].
  unfold initialState. cbn [App.history].
  destruct hasWindow; [apply loadHistory_ids, Hstored | constructor].
Qed.
End IdFacts.

(** ** The random index *)

(** The product of a positive double below 1, [m / 2 ^ e], with [max]
    stays below [max] after the rounding: the largest such product is
    [max - max / 2 ^ e], which is more than half a unit in the last place
    below [max]. *)
Lemma round53_below (n m max e : Z) :
  0 < m -> m < 2 ^ 53 -> m < 2 ^ e -> 0 <= e ->
  0 < max -> max < 2 ^ 53 ->
  n = m * max ->
  0 <= round53 n < max * 2 ^ e.
Proof.
  intros Hm0 Hm53 Hme He Hmax0 Hmax53 Hn.
  assert (Hnpos : 0 < n) by nia.
  assert (HnN : n <= (2 ^ e - 1) * max) by nia.
  unfold round53.
  destruct (Z.leb_spec (Z.log2 n - 52) 0) as [Hk | Hk]; [nia|].
  set (k := Z.log2 n - 52) in *.
  pose proof (Z.log2_spec n Hnpos) as [Hlo Hhi].
  replace (Z.log2 n) with (k + 52) in Hlo by (unfold k; lia).
  replace (Z.succ (Z.log2 n)) with (k + 53) in Hhi by (unfold k; lia).
  assert (HP : 2 ^ k = 2 * 2 ^ (k - 1)).
  { replace k with (1 + (k - 1)) at 1 by lia.
    rewrite Z.pow_add_r by lia. reflexivity. }
  assert (Hlo' : 2 ^ (k + 52) = 2 ^ (k - 1) * 2 ^ 53).
  { rewrite <- Z.pow_add_r by lia. f_equal. lia. }
  assert (Hhalf : 0 < 2 ^ (k - 1)) by (apply Z.pow_pos_nonneg; lia).
  assert (Hke : k <= e).
  { destruct (Z.le_gt_cases k e) as [|Hgt]; [assumption|exfalso].
    assert (Hpow : 2 ^ (e + 53) <= 2 ^ (k + 52))
      by (apply Z.pow_le_mono_r; lia).
    rewrite Z.pow_add_r in Hpow by lia. nia. }
  assert (HE : 2 ^ e = 2 ^ (e - k) * 2 ^ k).
  { rewrite <- Z.pow_add_r by lia. f_equal. lia. }
  assert (HEpos : 0 < 2 ^ (e - k)) by (apply Z.pow_pos_nonneg; lia).
  pose proof (Z.div_mod n (2 ^ k) ltac:(lia)) as Hdm.
  pose proof (Z.mod_pos_bound n (2 ^ k) ltac:(lia)) as Hrest.
  set (q := n / 2 ^ k) in *. set (rest := n mod 2 ^ k) in *.
  set (half := 2 ^ (k - 1)) in *. set (P := 2 ^ k) in *.
  set (M := max * 2 ^ (e - k)).
  assert (HN : max * 2 ^ e = M * P) by (unfold M; rewrite HE; ring).
  assert (Hq0 : 0 <= q) by (unfold q; apply Z.div_pos; lia).
  assert (HqM : q < M).
  { assert (q * P < M * P) by nia. nia. }
  rewrite HN.
  destruct ((half <? rest) || (rest =? half) && Z.odd q) eqn:Hup.
  - assert (Hge : half <= rest).
    { apply orb_true_iff in Hup as [Hup | Hup].
      - apply Z.ltb_lt in Hup. lia.
      - apply andb_true_iff in Hup as [Hup _]. apply Z.eqb_eq in Hup. lia. }
    split; [nia|].
    assert (q + 1 < M); [|nia].
    destruct (Z.eq_dec (q + 1) M) as [Heq|]; [exfalso|lia].
    (* n >= N - half and n <= N - max give max <= half; yet half < max *)
    assert (Hmaxhalf : max <= half) by nia.
    assert (half * 2 ^ 53 < 2 ^ 53 * max) by nia.
    nia.
  - split; nia.
Qed.

Lemma floorMul_range (r : double) (max : Z) :
  unitDouble r = true -> 0 < max < 2 ^ 53 -> 0 <= floorMul r max < max.
Proof.
  unfold unitDouble, floorMul. intros Hr [Hmax0 Hmax53].
  repeat (apply andb_true_iff in Hr as [Hr ?]).
  rewrite ?Z.leb_le, ?Z.ltb_lt in *.
  destruct r as [m e]; simpl in *.
  assert (HE : 0 < 2 ^ e) by (apply Z.pow_pos_nonneg; lia).
  destruct (Z.eq_dec m 0) as [-> | Hm].
  - simpl. rewrite Z.div_0_l by lia. lia.
  - assert (Hpos : 0 < m * max) by nia.
    rewrite Z.sgn_pos, Z.abs_eq, Z.mul_1_l by lia.
    pose proof (round53_below (m * max) m max e ltac:(lia) ltac:(lia) ltac:(lia)
                  ltac:(lia) Hmax0 Hmax53 eq_refl) as [Hlo Hhi].
    split.
    + apply Z.div_pos; lia.
    + apply Z.div_lt_upper_bound; lia.
Qed.

(** The double nearest to one third, times 3, is rounded to 1; the largest
    double below 1, times 86, stays below 86.  [floorMul] and the binary64
    product agree on these and on the doubles of the sample tape. *)
Example floorMul_third :
  floorMul (mkDouble 6004799503160661 54) 3 = 1
  /\ floorMulIEEE (mkDouble 6004799503160661 54) 3 = Some 1
  /\ 6004799503160661 * 3 / 2 ^ 54 = 0.
Proof. repeat split; vm_compute; reflexivity. Qed.

Example floorMul_largest :
  floorMul (mkDouble (2 ^ 53 - 1) 53) 86 = 85
  /\ floorMulIEEE (mkDouble (2 ^ 53 - 1) 53) 86 = Some 85.
Proof. split; vm_compute; reflexivity. Qed.

Example floorMul_sample_agree :
  forallb
    (fun n => match Sample.draws 17 (2 * n + 1)%nat with
              | MathRandom r =>
                  match floorMulIEEE r 86 with
                  | Some i => i =? floorMul r 86
                  | None => false
                  end
              | CryptoWord _ => false
              end)
    (seq 0 200)
  = true.
Proof. vm_compute. reflexivity. Qed.

Lemma tapeOk_tail (t : tape) : tapeOk t -> tapeOk (fun n => t (S n)).
Proof. intros Ht n. apply (Ht (S n)). Qed.

(** With a positive [max] below [2 ^ 53], [getRandomInt max] returns an
    index below [max], from either source. *)
Lemma getRandomInt_range (max : Z) (t : tape) :
  0 < max < 2 ^ 53 -> tapeOk t ->
  exists i, getRandomInt max t = (Num i, fun n => t (S n)) /\ 0 <= i < max.
Proof.
  intros Hmax Ht. unfold getRandomInt, bind, nextDraw, ret.
  specialize (Ht 0%nat). destruct (t 0%nat) as [w | r].
  - unfold jsrem, toUint32.
    destruct (Z.eqb_spec max 0) as [|_]; [lia|].
    eexists. split; [reflexivity|].
    pose proof (Z.mod_pos_bound w (2 ^ 32) ltac:(lia)).
    rewrite Z.rem_mod_nonneg by lia. apply Z.mod_pos_bound. lia.
  - eexists. split; [reflexivity|]. apply floorMul_range; assumption.
Qed.

(** ** The generator *)

Lemma chars_app (s1 s2 : string) :
  list_ascii_of_string (s1 ++ s2)
  = (list_ascii_of_string s1 ++ list_ascii_of_string s2)%list.
Proof. induction s1 as [|c s1 IH]; simpl; [reflexivity | rewrite IH; reflexivity]. Qed.

Lemma length_chars (s : string) :
  List.length (list_ascii_of_string s) = String.length s.
Proof. induction s as [|c s IH]; simpl; [reflexivity | rewrite IH; reflexivity]. Qed.

Lemma get_nth_error (s : string) (n : nat) :
  String.get n s = nth_error (list_ascii_of_string s) n.
Proof.
  revert n. induction s as [|c s IH]; intros [|n]; simpl; auto.
Qed.

(** Inside the string, [all[idx]] is one of its characters. *)
Lemma charAt_inside (all : string) (i : Z) :
  0 <= i < Z.of_nat (String.length all) ->
  exists c, charAt all (Num i) = Some c /\ In c (list_ascii_of_string all).
Proof.
  intros Hi. unfold charAt.
  destruct (Z.ltb_spec i 0) as [|_]; [lia|].
  rewrite get_nth_error.
  destruct (nth_error (list_ascii_of_string all) (Z.to_nat i)) as [c|] eqn:Hnth.
  - exists c. split; [reflexivity|]. eapply nth_error_In, Hnth.
  - apply nth_error_None in Hnth. rewrite length_chars in Hnth. lia.
Qed.

Lemma drawChars_spec (n : nat) (all password : string) (t : tape) :
  0 < Z.of_nat (String.length all) < 2 ^ 53 -> tapeOk t ->
  exists password' t',
    drawChars n all password t = (password', t') /\ tapeOk t'
    /\ String.length password' = (String.length password + n)%nat
    /\ forall c, In c (list_ascii_of_string password') ->
                 In c (list_ascii_of_string password)
                 \/ In c (list_ascii_of_string all).
Proof.
  intros Hall. revert password t.
  induction n as [|n IH]; intros password t Ht; simpl.
  - exists password, t. unfold ret. repeat split; auto.
  - destruct (getRandomInt_range _ t Hall Ht) as (i & Hdraw & Hi).
    destruct (charAt_inside all i Hi) as (c & Hc & Hin).
    unfold bind. rewrite Hdraw, Hc.
    destruct (IH (appendChar password (Some c)) _ (tapeOk_tail t Ht))
      as (password' & t' & Hrun & Ht' & Hlen & Hchars).
    exists password', t'. split; [exact Hrun|]. split; [exact Ht'|]. split.
    + rewrite Hlen. simpl.
      rewrite <- !length_chars, chars_app, List.length_app. simpl. lia.
    + intros c' Hc'. destruct (Hchars c' Hc') as [Hold | Hnew]; [|auto].
      simpl in Hold. rewrite chars_app in Hold.
      apply in_app_or in Hold as [Hold | Hold]; [auto|].
      simpl in Hold. destruct Hold as [<- | []]. auto.
Qed.

Lemma pools_alphabet (opts : Opts.t) :
  String.concat EmptyString (selectedPools opts) = alphabet opts.
Proof. destruct opts as [n [] [] [] []]; reflexivity. Qed.

Lemma pools_empty (opts : Opts.t) :
  (List.length (selectedPools opts) =? 0)%nat = negb (anyClass opts).
Proof. destruct opts as [n [] [] [] []]; reflexivity. Qed.

Lemma alphabet_size (opts : Opts.t) :
  anyClass opts = true ->
  10 <= Z.of_nat (String.length (alphabet opts)) <= 86.
Proof. destruct opts as [n [] [] [] []]; simpl; intros Hany; try discriminate; lia. Qed.

(** For any length, with a class enabled: the result is a string of
    [max 0 length] characters of the alphabet. *)
Lemma generatePassword_spec (opts : Opts.t) (t : tape) :
  anyClass opts = true -> tapeOk t ->
  exists password t',
    generatePassword opts t = (Ok password, t')
    /\ String.length password = Z.to_nat (Opts.length opts)
    /\ forall c, In c (list_ascii_of_string password) ->
                 In c (list_ascii_of_string (alphabet opts)).
Proof.
  intros Hany Ht. unfold generatePassword.
  rewrite pools_empty, Hany, pools_alphabet. cbn [negb].
  pose proof (alphabet_size opts Hany) as Hsize.
  destruct (drawChars_spec (Z.to_nat (Opts.length opts)) (alphabet opts)
              EmptyString t ltac:(lia) Ht)
    as (password & t' & Hrun & _ & Hlen & Hchars).
  exists password, t'. unfold bind, ret. cbv beta. rewrite Hrun.
  split; [reflexivity|]. split; [exact Hlen|].
  intros c Hc. destruct (Hchars c Hc) as [[] | Hin]. exact Hin.
Qed.

(** C1: with at least one class enabled and a length from 4 to 64,
    [generatePassword] returns a string of exactly [length] characters, each
    of them a character of the alphabet: the enabled class constants in the
    order uppercase, lowercase, digits, symbols.  Each [Math.random()] of the
    host is taken to be a double of the unit interval. *)
Theorem generatePassword_valid (opts : Opts.t) (t : tape) :
  anyClass opts = true ->
  4 <= Opts.length opts <= 64 ->
  tapeOk t ->
  exists password,
    fst (generatePassword opts t) = Ok password
    /\ Z.of_nat (String.length password) = Opts.length opts
    /\ forall c, In c (list_ascii_of_string password) ->
                 In c (list_ascii_of_string (alphabet opts)).
Proof.
  intros Hany Hlen Ht.
  destruct (generatePassword_spec opts t Hany Ht) as (password & t' & Hrun & Hn & Hchars).
  exists password. rewrite Hrun. split; [reflexivity|].
  split; [rewrite Hn; lia | exact Hchars].
Qed.

Lemma generatePassword_no_class (opts : Opts.t) (t : tape) :
  anyClass opts = false ->
  generatePassword opts t = (Throw "Select at least one character type.", t).
Proof.
  intros Hany. unfold generatePassword. rewrite pools_empty, Hany. reflexivity.
Qed.

Section HandlerFacts.
Context {host : Host}.

(** C2: with the four class flags false, whatever the length,
    [generatePassword] throws the validation error and gives no password;
    [handleGenerate] then shows the message and leaves the history and the
    current password as they were. *)
Theorem no_class_fails (opts : Opts.t) (t : tape) :
  Opts.useUppercase opts = false -> Opts.useLowercase opts = false ->
  Opts.useNumbers opts = false -> Opts.useSymbols opts = false ->
  fst (generatePassword opts t) = Throw "Select at least one character type."
  /\ forall env s,
       App.options s = opts ->
       App.history (handleGenerate env s) = App.history s
       /\ App.currentPassword (handleGenerate env s) = App.currentPassword s
       /\ App.error (handleGenerate env s)
          = Some "Select at least one character type.".
Proof.
  intros Hu Hl Hn Hs.
  assert (Hany : anyClass opts = false).
  { unfold anyClass. rewrite Hu, Hl, Hn, Hs. reflexivity. }
  split.
  - rewrite generatePassword_no_class by exact Hany. reflexivity.
  - intros env s Hopts. unfold handleGenerate. rewrite Hopts.
    rewrite generatePassword_no_class by exact Hany. simpl. auto.
Qed.

(** C10: [generatePassword] has no bound on the length: with a class
    enabled and a length of zero or less it returns the empty string, and
    draws nothing.  The clamp to the range from 4 to 64 is in
    [handleLengthChange], which applies it when the input is a number and
    does nothing when it is [NaN]; no other handler changes the length. *)
Theorem no_length_bounds :
  (forall opts t,
      anyClass opts = true -> Opts.length opts <= 0 ->
      generatePassword opts t = (Ok EmptyString, t))
  /\ (forall v s,
         Opts.length (App.options (handleLengthChange (Num v) s))
         = Z.min 64 (Z.max 4 v)
         /\ 4 <= Opts.length (App.options (handleLengthChange (Num v) s)) <= 64)
  /\ (forall s, handleLengthChange NaN s = s)
  /\ (forall ev s,
         (forall value, ev <> LengthChange value) ->
         Opts.length (App.options (handle ev s)) = Opts.length (App.options s)).
Proof.
  split; [|split; [|split]].
  - intros opts t Hany Hlen. unfold generatePassword.
    rewrite pools_empty, Hany. cbn [negb].
    replace (Z.to_nat (Opts.length opts)) with 0%nat by lia. reflexivity.
  - intros v s. simpl. lia.
  - reflexivity.
  - intros [env | id0 | value | which checked] s Hev; simpl.
    + unfold handleGenerate.
      destruct (fst (generatePassword (App.options s) (App.random env)));
        reflexivity.
    + reflexivity.
    + exfalso. apply (Hev value). reflexivity.
    + destruct which; reflexivity.
Qed.
End HandlerFacts.

(** ** The distribution of the strong index *)

(** Among the numbers below [n], the residue [i] modulo [max] is taken
    [n / max] times, and once more when [i] is below [n mod max]. *)
Lemma residue_count_succ (max i n : Z) :
  0 <= i < max -> 0 <= n ->
  n / max + (if i <? n mod max then 1 else 0) + (if n mod max =? i then 1 else 0)
  = (n + 1) / max + (if i <? (n + 1) mod max then 1 else 0).
Proof.
  intros Hi Hn.
  pose proof (Z.div_mod n max ltac:(lia)) as Hdm.
  pose proof (Z.mod_pos_bound n max ltac:(lia)) as Hr.
  destruct (Z.eq_dec (n mod max) (max - 1)) as [Hlast | Hmid].
  - assert (Hq : (n + 1) / max = n / max + 1).
    { symmetry. apply (Z.div_unique _ _ _ 0); lia. }
    assert (Hm : (n + 1) mod max = 0).
    { symmetry. apply (Z.mod_unique _ _ (n / max + 1)); lia. }
    rewrite Hq, Hm.
    destruct (Z.ltb_spec i (n mod max)), (Z.eqb_spec (n mod max) i),
      (Z.ltb_spec i 0); lia.
  - assert (Hq : (n + 1) / max = n / max).
    { symmetry. apply (Z.div_unique _ _ _ (n mod max + 1)); lia. }
    assert (Hm : (n + 1) mod max = n mod max + 1).
    { symmetry. apply (Z.mod_unique _ _ (n / max)); lia. }
    rewrite Hq, Hm.
    destruct (Z.ltb_spec i (n mod max)), (Z.eqb_spec (n mod max) i),
      (Z.ltb_spec i (n mod max + 1)); lia.
Qed.

(** The count of a function that, below [bound], tests the residue. *)
Lemma countBelow_residue (f : Z -> bool) (max i bound : Z) (n : N) :
  0 <= i < max ->
  (forall w, 0 <= w < bound -> f w = (w mod max =? i)) ->
  Z.of_N n <= bound ->
  countBelow f n = Z.of_N n / max + (if i <? Z.of_N n mod max then 1 else 0).
Proof.
  intros Hi Hf. unfold countBelow.
  enough (Hinv : Z.of_N n <= bound ->
                 N.iter n (countStep f) (0, 0)
                 = (Z.of_N n / max + (if i <? Z.of_N n mod max then 1 else 0),
                    Z.of_N n)).
  { intros Hn. rewrite Hinv by exact Hn. reflexivity. }
  apply (N.iter_ind _ (countStep f) (0, 0)
           (fun n a => Z.of_N n <= bound ->
                       a = (Z.of_N n / max
                            + (if i <? Z.of_N n mod max then 1 else 0), Z.of_N n))).
  - intros _. simpl. rewrite Z.div_0_l, Z.mod_0_l by lia.
    destruct (Z.ltb_spec i 0); [lia | reflexivity].
  - intros m a IH Hm. rewrite N2Z.inj_succ in *.
    rewrite IH by lia. unfold countStep. cbn [fst snd].
    rewrite Hf by lia. unfold Z.succ.
    rewrite residue_count_succ by lia. reflexivity.
Qed.

Lemma wordsGiving_count (max i : Z) :
  0 <= i < max ->
  wordsGiving max i = 2 ^ 32 / max + (if i <? 2 ^ 32 mod max then 1 else 0).
Proof.
  intros Hi. unfold wordsGiving.
  rewrite (countBelow_residue _ max i (2 ^ 32)); [reflexivity | exact Hi | | reflexivity].
  intros w Hw.
  unfold getRandomInt, bind, nextDraw, ret, jsrem, toUint32. cbn [fst].
  destruct (Z.eqb_spec max 0) as [|_]; [lia|].
  rewrite (Z.mod_small w) by lia.
  rewrite Z.rem_mod_nonneg by lia. reflexivity.
Qed.

(** From here on the count is used through [wordsGiving_count] only. *)
Opaque wordsGiving.

(** C9, as amended: with the strong source, the index [i] of an alphabet of
    size [max] is returned for [2 ^ 32 / max] of the 32-bit words, and for
    one more when [i < 2 ^ 32 mod max]; the counts of two indices differ by
    at most one, and since no alphabet size divides [2 ^ 32] the first and
    the last index do differ. *)
Theorem strong_index_counts (opts : Opts.t) (i : Z) :
  anyClass opts = true ->
  0 <= i < Z.of_nat (String.length (alphabet opts)) ->
  wordsGiving (Z.of_nat (String.length (alphabet opts))) i
  = 2 ^ 32 / Z.of_nat (String.length (alphabet opts))
    + (if i <? 2 ^ 32 mod Z.of_nat (String.length (alphabet opts)) then 1 else 0)
  /\ (forall j, 0 <= j < Z.of_nat (String.length (alphabet opts)) ->
                -1 <= wordsGiving (Z.of_nat (String.length (alphabet opts))) i
                      - wordsGiving (Z.of_nat (String.length (alphabet opts))) j <= 1)
  /\ wordsGiving (Z.of_nat (String.length (alphabet opts))) 0
     = wordsGiving (Z.of_nat (String.length (alphabet opts)))
         (Z.of_nat (String.length (alphabet opts)) - 1) + 1.
Proof.
  intros Hany Hi.
  pose proof (alphabet_size opts Hany) as Hsize.
  set (max := Z.of_nat (String.length (alphabet opts))) in *.
  assert (Hbias : 0 < 2 ^ 32 mod max < max).
  { pose proof (Z.mod_pos_bound (2 ^ 32) max ltac:(lia)).
    assert (2 ^ 32 mod max <> 0); [|lia].
    unfold max. destruct opts as [n [] [] [] []]; try discriminate; vm_compute;
      discriminate. }
  split; [apply wordsGiving_count, Hi|]. split.
  - intros j Hj.
    rewrite (wordsGiving_count max i Hi), (wordsGiving_count max j Hj).
    destruct (i <? 2 ^ 32 mod max), (j <? 2 ^ 32 mod max); lia.
  - rewrite (wordsGiving_count max 0), (wordsGiving_count max (max - 1)) by lia.
    destruct (Z.ltb_spec 0 (2 ^ 32 mod max)), (Z.ltb_spec (max - 1) (2 ^ 32 mod max));
      lia.
Qed.

(** * The model on the reference host *)

Lemma draws_ok (seed : Z) : tapeOk (Sample.draws seed).
Proof.
  intros n. unfold Sample.draws. cbv zeta. destruct (Nat.even n); [exact I|].
  unfold unitDouble. cbn [mant expo].
  pose proof (Z.mod_pos_bound ((Z.of_nat n + seed) * 6364136223846793005) (2 ^ 53)
                ltac:(lia)) as Hm.
  repeat (apply andb_true_iff; split);
    rewrite ?Z.leb_le, ?Z.ltb_lt; lia.
Qed.

Section OnRefHost.
#[local] Existing Instance RefHost.host.

Example sample_times :
  Date_getTime "2026-11-02T00:00:00.000Z" = Num Sample.now
  /\ Date_getTime "not a date" = NaN.
Proof. split; vm_compute; reflexivity. Qed.

(** Uppercase only, length 8: eight letters from A to Z. *)
Example sample_password :
  fst (generatePassword (Sample.upperOnly 8) (Sample.draws 17)) = Ok "YCIFSIGM".
Proof. vm_compute. reflexivity. Qed.

(** Entries made now, 10 days ago and 40 days ago: the last is pruned, and
    the other two come newest first. *)
Example sample_prune_sort :
  sortByNewest
    (pruneOldPasswords Sample.now
       [mkEntry "a" "p1" "2026-10-23T00:00:00.000Z";
        mkEntry "b" "p2" "2026-09-23T00:00:00.000Z";
        mkEntry "c" "p3" "2026-11-02T00:00:00.000Z"])
  = [mkEntry "c" "p3" "2026-11-02T00:00:00.000Z";
     mkEntry "a" "p1" "2026-10-23T00:00:00.000Z"].
Proof. vm_compute. reflexivity. Qed.

Lemma generatePassword_valid_witness :
  anyClass (Sample.allClasses 12) = true
  /\ 4 <= Opts.length (Sample.allClasses 12) <= 64
  /\ exists password,
       fst (generatePassword (Sample.allClasses 12) (Sample.draws 17)) = Ok password
       /\ Z.of_nat (String.length password) = Opts.length (Sample.allClasses 12)
       /\ forall c, In c (list_ascii_of_string password) ->
                    In c (list_ascii_of_string (alphabet (Sample.allClasses 12))).
Proof.
  split; [reflexivity|]. split; [simpl; lia|].
  apply (generatePassword_valid (Sample.allClasses 12) (Sample.draws 17));
    [reflexivity | simpl; lia | apply draws_ok].
Defined.

Lemma no_class_fails_witness :
  fst (generatePassword (Sample.noClass 16) (Sample.draws 17))
  = Throw "Select at least one character type."
  /\ App.history
       (handleGenerate Sample.envA
          (Sample.stateWith (Sample.noClass 16) [Sample.latest; Sample.recent]))
     = [Sample.latest; Sample.recent].
Proof.
  destruct (no_class_fails (Sample.noClass 16) (Sample.draws 17)
              eq_refl eq_refl eq_refl eq_refl) as [Hthrow Hstate].
  split; [exact Hthrow|].
  destruct (Hstate Sample.envA
              (Sample.stateWith (Sample.noClass 16) [Sample.latest; Sample.recent])
              eq_refl) as [Hhistory _].
  exact Hhistory.
Defined.

Lemma prune_keeps_iff_witness :
  Date_getTime (createdAt Sample.expired)
  = Num (Sample.now - (30 * 24 * 60 * 60 * 1000 + 1000))
  /\ pruneOldPasswords Sample.now [Sample.expired] = []
  /\ Date_getTime (createdAt Sample.recent)
     = Num (Sample.now - (29 * 24 + 23) * 60 * 60 * 1000)
  /\ pruneOldPasswords Sample.now [Sample.recent] = [Sample.recent].
Proof.
  destruct (prune_keeps_iff Sample.now [Sample.expired; Sample.recent])
    as (_ & _ & Hold & Hkeep).
  assert (He : Date_getTime (createdAt Sample.expired)
               = Num (Sample.now - (30 * 24 * 60 * 60 * 1000 + 1000)))
    by (vm_compute; reflexivity).
  assert (Hr : Date_getTime (createdAt Sample.recent)
               = Num (Sample.now - (29 * 24 + 23) * 60 * 60 * 1000))
    by (vm_compute; reflexivity).
  split; [exact He|]. split; [exact (Hold _ He)|].
  split; [exact Hr | exact (Hkeep _ Hr)].
Defined.

Lemma newest_first_witness :
  let l := loadHistory
             (saveHistory [Sample.recent; Sample.expired; Sample.latest] ∅)
             Sample.now in
  loadedOrAppended l
  /\ nth_error l 0 = Some Sample.latest
  /\ nth_error l 1 = Some Sample.recent
  /\ Date_getTime (createdAt Sample.latest) = Num 1793534400000
  /\ Date_getTime (createdAt Sample.recent) = Num 1790989200000
  /\ 1790989200000 < 1793534400000
  /\ (0 < 1)%nat.
Proof.
  intros l.
  assert (Hl : loadedOrAppended l) by apply fromLoad.
  assert (H0 : nth_error l 0 = Some Sample.latest) by (vm_compute; reflexivity).
  assert (H1 : nth_error l 1 = Some Sample.recent) by (vm_compute; reflexivity).
  assert (Ha : Date_getTime (createdAt Sample.latest) = Num 1793534400000)
    by (vm_compute; reflexivity).
  assert (Hb : Date_getTime (createdAt Sample.recent) = Num 1790989200000)
    by (vm_compute; reflexivity).
  assert (Hlt : 1790989200000 < 1793534400000) by lia.
  repeat (split; [assumption|]).
  exact (newest_first l Hl 0%nat 1%nat _ _ _ _ H0 H1 Ha Hb Hlt).
Defined.

Lemma save_then_load_witness :
  JSON_parse (JSON_stringify [Sample.recent; Sample.expired; Sample.latest])
  = Some [Sample.recent; Sample.expired; Sample.latest]
  /\ Permutation
       (loadHistory (saveHistory [Sample.recent; Sample.expired; Sample.latest] ∅)
          Sample.now)
       (pruneOldPasswords Sample.now [Sample.recent; Sample.expired; Sample.latest]).
Proof.
  assert (Hround : JSON_parse (JSON_stringify [Sample.recent; Sample.expired; Sample.latest])
                   = Some [Sample.recent; Sample.expired; Sample.latest])
    by (vm_compute; reflexivity).
  split; [exact Hround|].
  apply (save_then_load [Sample.recent; Sample.expired; Sample.latest] ∅ Sample.now);
    [exact Hround | vm_compute; discriminate].
Defined.
Lemma handleDelete_removes_witness :
  let s := Sample.stateWith (Sample.allClasses 16) [Sample.latest; Sample.recent] in
  List.NoDup (map id (App.history s))
  /\ (exists e, In e (App.history s) /\ id e = id Sample.recent)
  /\ S (List.length (App.history (handleDelete (id Sample.recent) s)))
     = List.length (App.history s).
Proof.
  intros s.
  assert (Hnd : List.NoDup (map id (App.history s))).
  { repeat constructor; simpl; intuition discriminate. }
  assert (Hin : exists e, In e (App.history s) /\ id e = id Sample.recent).
  { exists Sample.recent. split; [right; left|]; reflexivity. }
  split; [exact Hnd|]. split; [exact Hin|].
  destruct (handleDelete_removes (id Sample.recent) s) as (_ & _ & Hone & _).
  exact (Hone Hnd Hin).
Defined.

Lemma ids_stay_distinct_witness :
  let evs := [Generate Sample.envA; Delete "2026-11-01T12:00:00.000Z-4fzyo8";
              Generate Sample.envA; Generate Sample.envC] in
  storedIdsDistinct ∅
  /\ freshIds evs (initialState true ∅ Sample.startup)
  /\ List.NoDup
       (map id (App.history (run evs (initialState true ∅ Sample.startup)))).
Proof.
  intros evs.
  assert (Hstored : storedIdsDistinct ∅) by exact I.
  assert (Hfresh : freshIds evs (initialState true ∅ Sample.startup)).
  { vm_compute. intuition discriminate. }
  split; [exact Hstored|]. split; [exact Hfresh|].
  exact (ids_stay_distinct true ∅ Sample.startup evs Hstored Hfresh).
Defined.

Lemma no_length_bounds_witness :
  anyClass (Sample.allClasses (-3)) = true
  /\ Opts.length (Sample.allClasses (-3)) <= 0
  /\ generatePassword (Sample.allClasses (-3)) (Sample.draws 17)
     = (Ok EmptyString, Sample.draws 17)
  /\ Opts.length
       (App.options
          (handleLengthChange (Num 100) (Sample.stateWith (Sample.allClasses 16) [])))
     = 64.
Proof.
  destruct no_length_bounds as (Hempty & Hclamp & _ & _).
  split; [reflexivity|]. split; [simpl; lia|]. split.
  - apply Hempty; [reflexivity | simpl; lia].
  - destruct (Hclamp 100 (Sample.stateWith (Sample.allClasses 16) [])) as [Heq _].
    exact Heq.
Defined.

(** The collection of the run holds two entries with one id; deleting by
    that id removes both, and leaves none of the two entries. *)
Lemma delete_twins_counterexample :
  let s := run [Generate Sample.envA; Generate Sample.envB]
             (initialState true ∅ Sample.startup) in
  App.history s
  = [mkEntry "2026-11-01T12:00:00.000Z-4fzyo8" "lwn6Z*b;dEfORZTk"
       "2026-11-01T12:00:00.000Z";
     mkEntry "2026-11-01T12:00:00.000Z-4fzyo8" "EIGTId:o.y>9A)_."
       "2026-11-01T12:00:00.000Z"]
  /\ List.length (App.history s) = 2%nat
  /\ App.history (handleDelete "2026-11-01T12:00:00.000Z-4fzyo8" s) = []
  /\ List.length (App.history (handleDelete "2026-11-01T12:00:00.000Z-4fzyo8" s))
     <> (List.length (App.history s) - 1)%nat.
Proof.
  intros s. split; [|split; [|split]].
  - vm_compute. reflexivity.
  - vm_compute. reflexivity.
  - vm_compute. reflexivity.
  - vm_compute. discriminate.
Qed.

(** Two calls of [handleGenerate] in one millisecond whose random
    suffixes agree leave two entries with one id in the history. *)
Lemma same_millisecond_ids_collide :
  let s := run [Generate Sample.envA; Generate Sample.envB]
             (initialState true ∅ Sample.startup) in
  map id (App.history s)
  = ["2026-11-01T12:00:00.000Z-4fzyo8"; "2026-11-01T12:00:00.000Z-4fzyo8"]
  /\ map value (App.history s) = ["lwn6Z*b;dEfORZTk"; "EIGTId:o.y>9A)_."]
  /\ ~ List.NoDup (map id (App.history s)).
Proof.
  intros s.
  assert (Hids : map id (App.history s)
                 = ["2026-11-01T12:00:00.000Z-4fzyo8";
                    "2026-11-01T12:00:00.000Z-4fzyo8"])
    by (vm_compute; reflexivity).
  split; [exact Hids|]. split; [vm_compute; reflexivity|].
  rewrite Hids. intros Hnd. apply List.NoDup_cons_iff in Hnd as [Hnotin _].
  apply Hnotin. left. reflexivity.
Qed.
End OnRefHost.

Lemma strong_index_counts_witness :
  anyClass (Sample.allClasses 16) = true
  /\ 0 <= 3 < Z.of_nat (String.length (alphabet (Sample.allClasses 16)))
  /\ wordsGiving (Z.of_nat (String.length (alphabet (Sample.allClasses 16)))) 0
     = wordsGiving (Z.of_nat (String.length (alphabet (Sample.allClasses 16))))
         (Z.of_nat (String.length (alphabet (Sample.allClasses 16))) - 1) + 1.
Proof.
  assert (Hany : anyClass (Sample.allClasses 16) = true) by reflexivity.
  assert (Hi : 0 <= 3 < Z.of_nat (String.length (alphabet (Sample.allClasses 16))))
    by (simpl; lia).
  split; [exact Hany|]. split; [exact Hi|].
  destruct (strong_index_counts (Sample.allClasses 16) 3 Hany Hi) as (_ & _ & Hends).
  exact Hends.
Defined.

(** With all four classes the alphabet has 86 characters, and [2 ^ 32] is
    not a multiple of 86: the first 16 indices are each returned for one
    word more than the other 70. *)
Lemma strong_index_not_uniform :
  Z.of_nat (String.length (alphabet (Sample.allClasses 16))) = 86
  /\ wordsGiving 86 0 = 49941481
  /\ wordsGiving 86 85 = 49941480
  /\ ~ uniformIndex (Sample.allClasses 16).
Proof.
  assert (H0 : wordsGiving 86 0 = 49941481).
  { rewrite (wordsGiving_count 86 0) by lia. reflexivity. }
  assert (H85 : wordsGiving 86 85 = 49941480).
  { rewrite (wordsGiving_count 86 85) by lia. reflexivity. }
  split; [reflexivity|]. split; [exact H0|]. split; [exact H85|].
  intros Huni. unfold uniformIndex in Huni. cbv zeta in Huni.
  change (Z.of_nat (String.length (alphabet (Sample.allClasses 16)))) with 86 in Huni.
  specialize (Huni 0 85 ltac:(lia) ltac:(lia)).
  rewrite H0, H85 in Huni. discriminate.
Qed.

(** * Further properties *)

(** ** The generator, draw by draw *)

(** X1: for a positive [max] below [2 ^ 53], [getRandomInt max] returns an
    index from [0] to [max - 1] whichever source the host offers, and it
    consumes exactly one draw. *)
Theorem getRandomInt_in_range (max : Z) (t : tape) :
  0 < max < 2 ^ 53 -> tapeOk t ->
  exists i, fst (getRandomInt max t) = Num i /\ 0 <= i < max
            /\ forall n, snd (getRandomInt max t) n = t (S n).
Proof.
  intros Hmax Ht.
  destruct (getRandomInt_range max t Hmax Ht) as (i & Hrun & Hi).
  exists i. rewrite Hrun. auto.
Qed.

Lemma append_cons (c : ascii) (s s' : string) :
  String c s ++ s' = String c (s ++ s').
Proof. reflexivity. Qed.





(** No character belongs to two of the four classes. *)
Lemma classes_disjoint (c : ascii) :
  (memberOf c UPPERCASE && (memberOf c LOWERCASE || memberOf c NUMBERS || memberOf c SYMBOLS)
   || memberOf c LOWERCASE && (memberOf c NUMBERS || memberOf c SYMBOLS)
   || memberOf c NUMBERS && memberOf c SYMBOLS)%bool = false.
Proof. destruct c as [[] [] [] [] [] [] [] []]; vm_compute; reflexivity. Qed.

Lemma memberOf_In (c : ascii) (s : string) :
  memberOf c s = true <-> In c (list_ascii_of_string s).
Proof.
  unfold memberOf. rewrite existsb_exists. split.
  - intros (x & Hin & Heq). apply Ascii.eqb_eq in Heq. subst. exact Hin.
  - intros Hin. exists c. split; [exact Hin | apply Ascii.eqb_refl].
Qed.

Lemma memberOf_app (c : ascii) (s1 s2 : string) :
  memberOf c (s1 ++ s2) = (memberOf c s1 || memberOf c s2)%bool.
Proof. unfold memberOf. rewrite chars_app. apply existsb_app. Qed.

(** X3: a class that is switched off contributes no character: a character
    of the password that belongs to one of the four class constants
    belongs to a class that is enabled. *)
Theorem disabled_class_absent (opts : Opts.t) (t : tape) (password : string) (c : ascii) :
  tapeOk t ->
  fst (generatePassword opts t) = Ok password ->
  In c (list_ascii_of_string password) ->
  (memberOf c UPPERCASE = true -> Opts.useUppercase opts = true)
  /\ (memberOf c LOWERCASE = true -> Opts.useLowercase opts = true)
  /\ (memberOf c NUMBERS = true -> Opts.useNumbers opts = true)
  /\ (memberOf c SYMBOLS = true -> Opts.useSymbols opts = true).
Proof.
  intros Ht Hrun Hin.
  destruct (anyClass opts) eqn:Hany.
  2:{ rewrite generatePassword_no_class in Hrun by exact Hany. discriminate. }
  destruct (generatePassword_spec opts t Hany Ht) as (pw & t' & Hgen & _ & Hchars).
  rewrite Hgen in Hrun. injection Hrun as <-.
  apply Hchars, memberOf_In in Hin.
  pose proof (classes_disjoint c) as Hdis.
  unfold alphabet in Hin. rewrite !memberOf_app in Hin.
  destruct opts as [n u l d y]. cbn [Opts.useUppercase Opts.useLowercase
    Opts.useNumbers Opts.useSymbols] in *.
  assert (Hempty : memberOf c EmptyString = false) by reflexivity.
  destruct u, l, d, y; rewrite ?Hempty in Hin;
    destruct (memberOf c UPPERCASE), (memberOf c LOWERCASE),
      (memberOf c NUMBERS), (memberOf c SYMBOLS);
    simpl in *; try discriminate; auto.
Qed.

(** ** The sort *)

Section MoreSortFacts.
Context {A : Type} (comparefn : A -> A -> jsnum).
Context (P : A -> Prop) (k : A -> Z).
Hypothesis comparefn_key :
  forall x y, P x -> P y -> comesAfter comparefn x y = (k x <? k y).

(** An element that is not smaller than any element of the list is put in
    front. *)
Lemma sortedInsert_front (x : A) (l : list A) :
  P x -> Forall P l -> Forall (fun y => k y <= k x) l ->
  sortedInsert comparefn x l = x :: l.
Proof.
  intros Px Pl Hle. destruct l as [|y l]; [reflexivity|]. simpl.
  inversion Pl; subst. inversion Hle; subst.
  rewrite comparefn_key by assumption.
  destruct (Z.ltb_spec (k x) (k y)); [lia | reflexivity].
Qed.

(** A list that is in order already is returned as it is. *)
Lemma Array_sort_fixed (l : list A) :
  Forall P l -> StronglySorted (fun a b => k b <= k a) l ->
  Array_sort comparefn l = l.
Proof.
  intros Pl Hs. induction Hs as [|x l Hs IH Hx]; [reflexivity|].
  inversion Pl; subst. simpl. rewrite IH by assumption.
  apply sortedInsert_front; assumption.
Qed.

Lemma Forall_filter_keep (Q : A -> Prop) (p : A -> bool) (l : list A) :
  Forall Q l -> Forall Q (List.filter p l).
Proof.
  intros Hl. apply List.Forall_forall. intros x Hx.
  apply filter_In in Hx as [Hx _]. rewrite List.Forall_forall in Hl. auto.
Qed.

Lemma filter_sortedInsert (p : A -> bool) (x : A) (l : list A) :
  P x -> Forall P l -> StronglySorted (fun a b => k b <= k a) l ->
  List.filter p (sortedInsert comparefn x l)
  = if p x then sortedInsert comparefn x (List.filter p l) else List.filter p l.
Proof.
  intros Px Pl Hs. induction Hs as [|y l Hs IH Hy].
  - simpl. destruct (p x); reflexivity.
  - inversion Pl as [|? ? Py Pl']; subst.
    cbn [sortedInsert]. rewrite (comparefn_key x y Px Py).
    destruct (Z.ltb_spec (k x) (k y)) as [Hlt | Hge].
    + cbn [List.filter]. rewrite IH by assumption.
      destruct (p y), (p x); try reflexivity.
      cbn [sortedInsert]. rewrite (comparefn_key x y Px Py).
      destruct (Z.ltb_spec (k x) (k y)); [reflexivity | lia].
    + cbn [List.filter]. destruct (p x); [|reflexivity].
      symmetry. apply sortedInsert_front; [assumption| |].
      * apply Forall_filter_keep with (l := y :: l). assumption.
      * apply Forall_filter_keep with (l := y :: l).
        constructor; [exact Hge|].
        eapply List.Forall_impl; [|exact Hy]. intros z Hz. simpl in Hz. lia.
Qed.

(** Sorting and filtering commute. *)
Lemma filter_Array_sort (p : A -> bool) (l : list A) :
  Forall P l ->
  List.filter p (Array_sort comparefn l) = Array_sort comparefn (List.filter p l).
Proof.
  induction 1 as [|x l Px Pl IH]; [reflexivity|].
  cbn [Array_sort fold_right]. fold (Array_sort comparefn l).
  rewrite filter_sortedInsert.
  - cbn [List.filter]. destruct (p x); [|exact IH].
    cbn [Array_sort fold_right]. fold (Array_sort comparefn (List.filter p l)).
    rewrite IH. reflexivity.
  - exact Px.
  - eapply Permutation_Forall; [symmetry; apply Array_sort_perm | exact Pl].
  - apply (Array_sort_sorted comparefn P k comparefn_key). exact Pl.
Qed.
End MoreSortFacts.

Lemma StronglySorted_filter {A : Type} (R : A -> A -> Prop) (p : A -> bool) (l : list A) :
  StronglySorted R l -> StronglySorted R (List.filter p l).
Proof.
  induction 1 as [|x l Hs IH Hx]; simpl; [constructor|].
  destruct (p x); [|exact IH]. constructor; [exact IH|].
  apply List.Forall_forall. intros y Hy. apply filter_In in Hy as [Hy _].
  rewrite List.Forall_forall in Hx. auto.
Qed.

Lemma filter_all_true {A : Type} (p : A -> bool) (l : list A) :
  (forall x, In x l -> p x = true) -> List.filter p l = l.
Proof.
  induction l as [|x l IH]; intros Hp; simpl; [reflexivity|].
  rewrite (Hp x) by (left; reflexivity). f_equal. apply IH.
  intros y Hy. apply Hp. right. exact Hy.
Qed.

Section MoreHistoryFacts.
Context {host : Host}.

Lemma sortByNewest_sorted (entries : list PasswordEntry) :
  List.Forall parses entries -> newestFirst (sortByNewest entries).
Proof.
  intros Hv. split.
  - apply (Array_sort_sorted byNewest parses timeOf byNewest_key). exact Hv.
  - eapply Permutation_Forall; [symmetry; apply sortByNewest_perm | exact Hv].
Qed.

Lemma sortByNewest_fixed (h : list PasswordEntry) :
  newestFirst h -> sortByNewest h = h.
Proof.
  intros [Hs Hv]. apply (Array_sort_fixed byNewest parses timeOf byNewest_key); assumption.
Qed.

Lemma prune_newestFirst (now : Z) (h : list PasswordEntry) :
  newestFirst h -> newestFirst (pruneOldPasswords now h).
Proof.
  intros [Hs Hv]. split; [apply StronglySorted_filter, Hs | apply prune_valid].
Qed.

Lemma keepEntry_later (now1 now2 : Z) (e : PasswordEntry) :
  now1 <= now2 -> keepEntry now2 e = true -> keepEntry now1 e = true.
Proof.
  intros Hle. rewrite !keepEntry_true. intros (ts & Hts & Hage).
  exists ts. split; [exact Hts | lia].
Qed.

(** X4: pruning at a later time absorbs an earlier pruning, and keeps
    nothing that the earlier pruning dropped. *)
Theorem prune_at_later_time (now1 now2 : Z) (entries : list PasswordEntry) :
  now1 <= now2 ->
  pruneOldPasswords now2 (pruneOldPasswords now1 entries)
  = pruneOldPasswords now2 entries
  /\ forall e, In e (pruneOldPasswords now2 entries) ->
               In e (pruneOldPasswords now1 entries).
Proof.
  intros Hle. split.
  - unfold pruneOldPasswords.
    induction entries as [|e entries IH]; simpl; [reflexivity|].
    destruct (keepEntry now1 e) eqn:H1; simpl.
    + rewrite IH. reflexivity.
    + destruct (keepEntry now2 e) eqn:H2; [|exact IH].
      apply (keepEntry_later now1 now2 e Hle) in H2. congruence.
  - intros e He. apply prune_In in He as [Hin Hk]. apply prune_In.
    split; [exact Hin | exact (keepEntry_later now1 now2 e Hle Hk)].
Qed.

(** X5: [sortByNewest] returns the entries it was given, each as many
    times, whatever their timestamps (also those that do not parse). *)
Theorem sortByNewest_keeps_entries (entries : list PasswordEntry) :
  Permutation (sortByNewest entries) entries
  /\ List.length (sortByNewest entries) = List.length entries
  /\ forall e, In e (sortByNewest entries) <-> In e entries.
Proof.
  pose proof (sortByNewest_perm entries) as Hp.
  split; [exact Hp|]. split; [apply Permutation_length, Hp|].
  intros e. split; apply Permutation_in; [exact Hp | symmetry; exact Hp].
Qed.


(** X7: pruning and sorting an already pruned and sorted collection, at
    the same time, changes nothing. *)
Theorem prune_sort_idempotent (now : Z) (entries : list PasswordEntry) :
  sortByNewest (pruneOldPasswords now (sortByNewest (pruneOldPasswords now entries)))
  = sortByNewest (pruneOldPasswords now entries).
Proof.
  set (h := sortByNewest (pruneOldPasswords now entries)).
  assert (Hh : newestFirst h) by apply sortByNewest_sorted, prune_valid.
  assert (Hkeep : pruneOldPasswords now h = h).
  { apply filter_all_true. intros e He.
    apply (Permutation_in _ (sortByNewest_perm _)) in He.
    apply prune_In in He. tauto. }
  rewrite Hkeep. apply sortByNewest_fixed, Hh.
Qed.

(** X8: what [loadHistory] returns: an entry is loaded exactly when the
    key holds a non-empty text that parses to a collection with that entry,
    and the entry passes the prune; so an absent key, an empty text and a
    text that does not parse all give the empty history. *)
Theorem loadHistory_entries (localStorage : gmap string string) (now : Z)
    (e : PasswordEntry) :
  In e (loadHistory localStorage now) <->
  exists raw parsed,
    localStorage !! STORAGE_KEY = Some raw /\ raw <> EmptyString
    /\ JSON_parse raw = Some parsed /\ In e parsed /\ keepEntry now e = true.
Proof.
  unfold loadHistory. split.
  - destruct (localStorage !! STORAGE_KEY) as [raw|]; [|intros []].
    destruct (String.eqb_spec raw EmptyString) as [|Hne]; [intros []|].
    destruct (JSON_parse raw) as [parsed|] eqn:Hparse; [|intros []].
    intros He. apply (Permutation_in _ (sortByNewest_perm _)) in He.
    apply prune_In in He as [Hin Hk]. exists raw, parsed. auto.
  - intros (raw & parsed & Hraw & Hne & Hparse & Hin & Hk).
    rewrite Hraw. apply String.eqb_neq in Hne. rewrite Hne, Hparse.
    apply (Permutation_in _ (Permutation_sym (sortByNewest_perm _))).
    apply prune_In. auto.
Qed.

(** X9: [saveHistory] writes the one key: the last save is the one that is
    loaded, whatever was saved before, and the other keys of the store are
    left as they were. *)
Theorem saveHistory_overwrites (a b : list PasswordEntry)
    (localStorage : gmap string string) (now : Z) :
  saveHistory b (saveHistory a localStorage) = saveHistory b localStorage
  /\ loadHistory (saveHistory b (saveHistory a localStorage)) now
     = loadHistory (saveHistory b localStorage) now
  /\ forall key, key <> STORAGE_KEY ->
                 saveHistory b localStorage !! key = localStorage !! key.
Proof.
  assert (Hsame : saveHistory b (saveHistory a localStorage) = saveHistory b localStorage).
  { unfold saveHistory. apply insert_insert_eq. }
  split; [exact Hsame|]. split; [rewrite Hsame; reflexivity|].
  intros key Hkey. unfold saveHistory. apply lookup_insert_ne. congruence.
Qed.
End MoreHistoryFacts.

(** ** The handlers *)

Lemma filter_swap {A : Type} (p q : A -> bool) (l : list A) :
  List.filter p (List.filter q l) = List.filter q (List.filter p l).
Proof.
  induction l as [|x l IH]; simpl; [reflexivity|].
  destruct (p x) eqn:Hp, (q x) eqn:Hq; simpl; rewrite ?Hp, ?Hq, IH; reflexivity.
Qed.

Lemma filter_twice {A : Type} (p : A -> bool) (l : list A) :
  List.filter p (List.filter p l) = List.filter p l.
Proof.
  apply filter_all_true. intros x Hx. apply filter_In in Hx. tauto.
Qed.

Section MoreHandlerFacts.
Context {host : Host}.

(** X10: a successful [handleGenerate] shows the new password, clears the
    error, keeps the options, and stores as history the entries of
    [newEntry :: history] that pass the prune: every entry of the result
    is within the window, at most one entry is added, and the new entry is
    there when its own timestamp passes the prune. *)
Theorem handleGenerate_success (env : App.GenerateEnv) (s : App.State) (pwd : string) :
  fst (generatePassword (App.options s) (App.random env)) = Ok pwd ->
  App.currentPassword (handleGenerate env s) = pwd
  /\ App.error (handleGenerate env s) = None
  /\ App.options (handleGenerate env s) = App.options s
  /\ Permutation (App.history (handleGenerate env s))
       (pruneOldPasswords (App.dateNow env) (newEntry env pwd :: App.history s))
  /\ (forall e, In e (App.history (handleGenerate env s)) ->
                keepEntry (App.dateNow env) e = true)
  /\ (List.length (App.history (handleGenerate env s))
      <= S (List.length (App.history s)))%nat
  /\ (keepEntry (App.dateNow env) (newEntry env pwd) = true ->
      In (newEntry env pwd) (App.history (handleGenerate env s))).
Proof.
  intros Hok. unfold handleGenerate. rewrite Hok. cbn [App.currentPassword
    App.error App.options App.history].
  pose proof (sortByNewest_perm
                (pruneOldPasswords (App.dateNow env) (newEntry env pwd :: App.history s)))
    as Hp.
  repeat (split; [reflexivity|]). split; [exact Hp|]. split; [|split].
  - intros e He. apply (Permutation_in _ Hp) in He. apply prune_In in He. tauto.
  - rewrite (Permutation_length Hp). unfold pruneOldPasswords.
    pose proof (List.filter_length_le (keepEntry (App.dateNow env))
                  (newEntry env pwd :: App.history s)) as Hle.
    simpl in Hle. simpl. lia.
  - intros Hk. apply (Permutation_in _ (Permutation_sym Hp)).
    apply prune_In. split; [left; reflexivity | exact Hk].
Qed.

(** X11: when the new entry passes the prune and no kept entry of the old
    history is strictly newer, the new entry is the first of the new
    history, before the entries of its own instant, and the rest is the
    pruned old history in order. *)
Theorem new_entry_first (env : App.GenerateEnv) (s : App.State) (pwd : string) :
  fst (generatePassword (App.options s) (App.random env)) = Ok pwd ->
  keepEntry (App.dateNow env) (newEntry env pwd) = true ->
  (forall e, In e (App.history s) -> keepEntry (App.dateNow env) e = true ->
             timeOf e <= timeOf (newEntry env pwd)) ->
  App.history (handleGenerate env s)
  = newEntry env pwd
    :: sortByNewest (pruneOldPasswords (App.dateNow env) (App.history s)).
Proof.
  intros Hok Hk Hold. unfold handleGenerate. rewrite Hok. cbn [App.history].
  unfold pruneOldPasswords at 1. cbn [List.filter]. rewrite Hk.
  fold (pruneOldPasswords (App.dateNow env) (App.history s)).
  unfold sortByNewest at 1. cbn [Array_sort fold_right].
  fold (Array_sort byNewest (pruneOldPasswords (App.dateNow env) (App.history s))).
  fold (sortByNewest (pruneOldPasswords (App.dateNow env) (App.history s))).
  pose proof (sortByNewest_perm (pruneOldPasswords (App.dateNow env) (App.history s)))
    as Hp.
  apply (sortedInsert_front byNewest parses timeOf byNewest_key).
  - apply keepEntry_true in Hk as (ts & Hts & _). exists ts. exact Hts.
  - eapply Permutation_Forall; [symmetry; exact Hp | apply prune_valid].
  - apply List.Forall_forall. intros e He. apply (Permutation_in _ Hp) in He.
    apply prune_In in He as [Hin Hke]. apply Hold; assumption.
Qed.

(** X12: deleting the entry that [handleGenerate] has just added, by an id
    that no older entry has, leaves the old history pruned and sorted. *)
Theorem delete_after_generate (env : App.GenerateEnv) (s : App.State) (pwd : string) :
  fst (generatePassword (App.options s) (App.random env)) = Ok pwd ->
  ~ In (newId (App.isoNow env) env) (map id (App.history s)) ->
  App.history (handleDelete (newId (App.isoNow env) env) (handleGenerate env s))
  = sortByNewest (pruneOldPasswords (App.dateNow env) (App.history s)).
Proof.
  intros Hok Hfresh. unfold handleDelete, handleGenerate. rewrite Hok.
  cbn [App.history]. unfold sortByNewest.
  rewrite (filter_Array_sort byNewest parses timeOf byNewest_key)
    by apply prune_valid.
  f_equal. unfold pruneOldPasswords. rewrite filter_swap. f_equal.
  cbn [List.filter newEntry id]. rewrite String.eqb_refl. cbn [negb].
  apply removed_absent. intros e He Hid. apply Hfresh.
  apply in_map_iff. exists e. auto.
Qed.

(** X13: deletions compose: deleting an id twice is deleting it once, and
    two deletions give the same state in either order. *)
Theorem handleDelete_compose (a b : string) (s : App.State) :
  handleDelete a (handleDelete a s) = handleDelete a s
  /\ handleDelete a (handleDelete b s) = handleDelete b (handleDelete a s).
Proof.
  unfold handleDelete. cbn [App.options App.currentPassword App.error App.history].
  split; f_equal; [apply filter_twice | apply filter_swap].
Qed.

Lemma loadHistory_newestFirst (localStorage : gmap string string) (now : Z) :
  newestFirst (loadHistory localStorage now).
Proof.
  assert (Hnil : newestFirst []) by (split; constructor).
  unfold loadHistory.
  destruct (localStorage !! STORAGE_KEY) as [raw|]; [|exact Hnil].
  destruct (String.eqb raw EmptyString); [exact Hnil|].
  destruct (JSON_parse raw) as [parsed|]; [|exact Hnil].
  apply sortByNewest_sorted, prune_valid.
Qed.

Lemma handle_newestFirst (ev : event) (s : App.State) :
  newestFirst (App.history s) -> newestFirst (App.history (handle ev s)).
Proof.
  intros Hs. destruct ev as [env | id0 | [v|] | which checked]; simpl; try exact Hs.
  - unfold handleGenerate.
    destruct (fst (generatePassword (App.options s) (App.random env)));
      cbn [App.history]; [|exact Hs].
    apply sortByNewest_sorted, prune_valid.
  - destruct Hs as [Hsorted Hvalid]. split.
    + apply StronglySorted_filter, Hsorted.
    + apply List.Forall_forall. intros e He. apply filter_In in He as [He _].
      rewrite List.Forall_forall in Hvalid. auto.
Qed.

Lemma run_newestFirst (evs : list event) (s : App.State) :
  newestFirst (App.history s) -> newestFirst (App.history (run evs s)).
Proof.
  revert s. induction evs as [|ev evs IH]; intros s Hs; [exact Hs|].
  unfold run. simpl. apply IH, handle_newestFirst, Hs.
Qed.

Lemma initial_newestFirst (hasWindow : bool) (localStorage : gmap string string)
    (now : Z) :
  newestFirst (App.history (initialState hasWindow localStorage now)).
Proof.
  unfold initialState. cbn [App.history].
  destruct hasWindow; [apply loadHistory_newestFirst | split; constructor].
Qed.

(** X14: whatever the store held and whatever the user does, the history
    is newest first and every [createdAt] in it parses: of two entries, the
    one further down is not the newer. *)
Theorem history_stays_newest_first (hasWindow : bool)
    (localStorage : gmap string string) (now : Z) (evs : list event) :
  newestFirst (App.history (run evs (initialState hasWindow localStorage now)))
  /\ forall i j a b,
       (i < j)%nat ->
       nth_error (App.history (run evs (initialState hasWindow localStorage now))) i
       = Some a ->
       nth_error (App.history (run evs (initialState hasWindow localStorage now))) j
       = Some b ->
       timeOf b <= timeOf a.
Proof.
  pose proof (run_newestFirst evs _ (initial_newestFirst hasWindow localStorage now))
    as Hs.
  split; [exact Hs|]. intros i j a b Hij Hi Hj.
  destruct Hs as [Hsorted _].
  exact (StronglySorted_nth _ _ Hsorted i j a b Hij Hi Hj).
Qed.

Lemma handle_length (ev : event) (s : App.State) :
  4 <= Opts.length (App.options s) <= 64 ->
  4 <= Opts.length (App.options (handle ev s)) <= 64.
Proof.
  intros Hs. destruct ev as [env | id0 | [v|] | which checked]; simpl; try exact Hs.
  - unfold handleGenerate.
    destruct (fst (generatePassword (App.options s) (App.random env))); exact Hs.
  - lia.
  - destruct which; exact Hs.
Qed.

Lemma run_length (evs : list event) (s : App.State) :
  4 <= Opts.length (App.options s) <= 64 ->
  4 <= Opts.length (App.options (run evs s)) <= 64.
Proof.
  revert s. induction evs as [|ev evs IH]; intros s Hs; [exact Hs|].
  unfold run. simpl. apply IH, handle_length, Hs.
Qed.

(** X15: the length that the component holds is always from 4 to 64: it
    starts at 16 and only [handleLengthChange] changes it. *)
Theorem length_stays_clamped (hasWindow : bool)
    (localStorage : gmap string string) (now : Z) (evs : list event) :
  4 <= Opts.length (App.options (run evs (initialState hasWindow localStorage now)))
  <= 64.
Proof. apply run_length. simpl. lia. Qed.

End MoreHandlerFacts.

(** ** The store follows the history *)

Section EffectFacts.
Context {host : Host}.

Lemma quiet_event_history (ev : event) (s : App.State) :
  setsHistory ev s = false -> App.history (handle ev s) = App.history s.
Proof.
  destruct ev as [env | id0 | [v|] | which checked]; simpl; try reflexivity.
  - unfold handleGenerate.
    destruct (fst (generatePassword (App.options s) (App.random env)));
      [discriminate | reflexivity].
  - discriminate.
Qed.

Lemma save_mirrors (base : gmap string string) (s : App.State)
    (localStorage : gmap string string) :
  (forall key, key <> STORAGE_KEY -> localStorage !! key = base !! key) ->
  mirrors base (s, saveHistory (App.history s) localStorage).
Proof.
  intros Hbase. split; cbn [fst snd]; unfold saveHistory.
  - apply lookup_insert_eq.
  - intros key Hkey. rewrite lookup_insert_ne by congruence. apply Hbase, Hkey.
Qed.

Lemma dispatch_mirrors (base : gmap string string) (ev : event)
    (w : App.State * gmap string string) :
  mirrors base w -> mirrors base (dispatch true ev w).
Proof.
  intros [Hkey Hbase]. unfold dispatch, persistEffect.
  destruct (setsHistory ev (fst w)) eqn:Hsets.
  - apply save_mirrors, Hbase.
  - split; cbn [fst snd]; [|exact Hbase].
    rewrite (quiet_event_history ev (fst w) Hsets). exact Hkey.
Qed.

Lemma runWorld_mirrors (base : gmap string string) (evs : list event)
    (w : App.State * gmap string string) :
  mirrors base w -> mirrors base (runWorld true evs w).
Proof.
  revert w. induction evs as [|ev evs IH]; intros w Hw; [exact Hw|].
  unfold runWorld. simpl. apply IH, dispatch_mirrors, Hw.
Qed.

Lemma runWorld_state (hasWindow : bool) (evs : list event)
    (w : App.State * gmap string string) :
  fst (runWorld hasWindow evs w) = run evs (fst w).
Proof.
  revert w. induction evs as [|ev evs IH]; intros w; [reflexivity|].
  unfold runWorld, run. simpl. apply IH.
Qed.

(** X17: in the browser, after the first render and after every event, the
    store holds under the history key the JSON text of the history that
    the component shows, and no other key has been touched; the state is
    the one that the handlers alone compute. *)
Theorem storage_mirrors_history (localStorage : gmap string string) (now : Z)
    (evs : list event) :
  snd (runWorld true evs (mount true localStorage now)) !! STORAGE_KEY
  = Some (JSON_stringify
            (App.history (fst (runWorld true evs (mount true localStorage now)))))
  /\ (forall key, key <> STORAGE_KEY ->
        snd (runWorld true evs (mount true localStorage now)) !! key
        = localStorage !! key)
  /\ fst (runWorld true evs (mount true localStorage now))
     = run evs (initialState true localStorage now).
Proof.
  assert (Hm : mirrors localStorage (runWorld true evs (mount true localStorage now))).
  { apply runWorld_mirrors. unfold mount, persistEffect.
    apply save_mirrors. reflexivity. }
  destruct Hm as [Hkey Hbase].
  split; [exact Hkey|]. split; [exact Hbase|]. apply runWorld_state.
Qed.

(** X18: reloading the page: what [loadHistory] then reads from the store
    is the history that was shown, pruned at the time of the reload and in
    the same order; it is that history itself when none of its entries has
    left the window.  The host's JSON is assumed to read back what it wrote
    for this history, and to write a non-empty text. *)
Theorem reload_gives_pruned_history (localStorage : gmap string string) (now : Z)
    (evs : list event) (later : Z) :
  JSON_parse
    (JSON_stringify
       (App.history (fst (runWorld true evs (mount true localStorage now)))))
  = Some (App.history (fst (runWorld true evs (mount true localStorage now)))) ->
  JSON_stringify (App.history (fst (runWorld true evs (mount true localStorage now))))
  <> EmptyString ->
  loadHistory (snd (runWorld true evs (mount true localStorage now))) later
  = pruneOldPasswords later
      (App.history (fst (runWorld true evs (mount true localStorage now))))
  /\ ((forall e,
         In e (App.history (fst (runWorld true evs (mount true localStorage now)))) ->
         keepEntry later e = true) ->
      loadHistory (snd (runWorld true evs (mount true localStorage now))) later
      = App.history (fst (runWorld true evs (mount true localStorage now)))).
Proof.
  intros Hround Hnonempty.
  assert (Hm : mirrors localStorage (runWorld true evs (mount true localStorage now))).
  { apply runWorld_mirrors. unfold mount, persistEffect.
    apply save_mirrors. reflexivity. }
  destruct Hm as [Hkey _].
  assert (Hs : newestFirst
                 (App.history (fst (runWorld true evs (mount true localStorage now))))).
  { rewrite runWorld_state. apply run_newestFirst, initial_newestFirst. }
  set (w := runWorld true evs (mount true localStorage now)) in *.
  assert (Hload : loadHistory (snd w) later
                  = pruneOldPasswords later (App.history (fst w))).
  { unfold loadHistory. rewrite Hkey.
    apply String.eqb_neq in Hnonempty. rewrite Hnonempty, Hround.
    apply sortByNewest_fixed, prune_newestFirst, Hs. }
  split; [exact Hload|].
  intros Hkeep. rewrite Hload. apply filter_all_true. exact Hkeep.
Qed.
End EffectFacts.

(** ** Ids and timestamps *)

Lemma append_same_length (a b x y : string) :
  String.length a = String.length b -> a ++ x = b ++ y -> a = b.
Proof.
  revert b. induction a as [|c a IH]; intros [|d b] Hlen Heq;
    try discriminate; [reflexivity|].
  rewrite !append_cons in Heq. injection Heq as -> Heq.
  f_equal. apply IH; [simpl in Hlen; lia | exact Heq].
Qed.

Section StampFacts.
Context {host : Host}.

Lemma handle_ids_from (ev : event) (s : App.State) (used : list string) :
  idsFrom used (App.history s) ->
  idsFrom (stamps [ev] ++ used) (App.history (handle ev s)).
Proof.
  intros Hfrom i Hi.
  assert (Hold : In i (map id (App.history s)) ->
                 exists stamp suffix,
                   i = stamp ++ "-" ++ suffix /\ In stamp (stamps [ev] ++ used)).
  { intros Hin. destruct (Hfrom i Hin) as (stamp & suffix & Heq & Hused).
    exists stamp, suffix. split; [exact Heq | apply in_or_app; right; exact Hused]. }
  destruct ev as [env | id0 | [v|] | which checked]; simpl in Hi; try (apply Hold, Hi).
  - unfold handleGenerate in Hi.
    destruct (fst (generatePassword (App.options s) (App.random env)))
      as [pwd|]; cbn [App.history] in Hi; [|apply Hold, Hi].
    apply in_map_iff in Hi as (e & <- & He).
    apply (Permutation_in _ (sortByNewest_perm _)) in He.
    apply prune_In in He as [[<- | He] _].
    + exists (App.isoNow env), (slice 2 8 (App.idRandom env)).
      split; [reflexivity | left; reflexivity].
    + apply Hold. apply in_map. exact He.
  - apply Hold. eapply filter_In_map_id, Hi.
Qed.

Lemma run_distinct_stamps (len : nat) (evs : list event) (s : App.State)
    (used : list string) :
  List.NoDup (map id (App.history s)) ->
  idsFrom used (App.history s) ->
  List.Forall (fun stamp => String.length stamp = len) used ->
  List.Forall (fun stamp => String.length stamp = len) (stamps evs) ->
  List.NoDup (stamps evs) ->
  (forall stamp, In stamp used -> ~ In stamp (stamps evs)) ->
  List.NoDup (map id (App.history (run evs s))).
Proof.
  revert s used. induction evs as [|ev evs IH];
    intros s used Hnd Hfrom Hused Hlen Hstamps Hdisj; [exact Hnd|].
  unfold run. simpl. fold (run evs (handle ev s)).
  pose proof (handle_ids_from ev s used Hfrom) as Hfrom'.
  destruct ev as [env | id0 | value | which checked].
  - simpl in Hlen, Hstamps, Hdisj, Hfrom'.
    apply List.NoDup_cons_iff in Hstamps as [Hnew Hstamps].
    apply List.Forall_cons_iff in Hlen as [Hlen0 Hlen'].
    apply (IH _ (App.isoNow env :: used)); try assumption.
    + apply handle_ids; [exact Hnd|]. intros Hin.
      destruct (Hfrom _ Hin) as (stamp & suffix & Heq & Hin').
      unfold newId in Heq.
      apply append_same_length in Heq.
      * subst stamp. apply (Hdisj _ Hin'). left. reflexivity.
      * rewrite List.Forall_forall in Hused. rewrite (Hused _ Hin'). exact Hlen0.
    + constructor; assumption.
    + intros stamp [<- | Hin]; [exact Hnew|].
      intros Hin'. apply (Hdisj _ Hin). right. exact Hin'.
  - apply (IH _ used);
      first [assumption | exact (handle_ids (Delete id0) s Hnd I)].
  - apply (IH _ used);
      first [assumption | exact (handle_ids (LengthChange value) s Hnd I)].
  - apply (IH _ used);
      first [assumption | exact (handle_ids (Check which checked) s Hnd I)].
Qed.

(** X19: starting with no stored history, if the timestamps that the
    [Generate] events read are pairwise distinct and of one length (as the
    24 characters of [toISOString] are), the ids of the history are
    pairwise distinct, whatever the random suffixes. *)
Theorem distinct_stamps_distinct_ids (hasWindow : bool)
    (localStorage : gmap string string) (now : Z) (evs : list event) (len : nat) :
  localStorage !! STORAGE_KEY = None ->
  List.NoDup (stamps evs) ->
  List.Forall (fun stamp => String.length stamp = len) (stamps evs) ->
  List.NoDup
    (map id (App.history (run evs (initialState hasWindow localStorage now)))).
Proof.
  intros Hkey Hstamps Hlen.
  assert (Hinit : App.history (initialState hasWindow localStorage now) = []).
  { unfold initialState, loadHistory. cbn [App.history]. rewrite Hkey.
    destruct hasWindow; reflexivity. }
  apply (run_distinct_stamps len evs _ []); try assumption.
  - rewrite Hinit. constructor.
  - rewrite Hinit. intros i [].
  - constructor.
  - intros stamp [].
Qed.
End StampFacts.

(** ** The first password *)

Section FirstUse.
Context {host : Host}.

(** X20: the first use: with no stored history, and the options as they
    start (all classes, length 16), one [Generate] whose timestamp parses
    and is within the window shows a password of 16 characters, leaves a
    history of exactly one entry, which holds that password, and writes the
    JSON text of that one entry to the store. *)
Theorem first_generate (localStorage : gmap string string) (now : Z)
    (env : App.GenerateEnv) (ts : Z) :
  localStorage !! STORAGE_KEY = None ->
  tapeOk (App.random env) ->
  Date_getTime (App.isoNow env) = Num ts ->
  App.dateNow env - ts <= MAX_AGE_MS ->
  exists pwd,
    String.length pwd = 16%nat
    /\ fst (dispatch true (Generate env) (mount true localStorage now))
       = App.mk (Opts.mk 16 true true true true) pwd None
           [mkEntry (newId (App.isoNow env) env) pwd (App.isoNow env)]
    /\ snd (dispatch true (Generate env) (mount true localStorage now)) !! STORAGE_KEY
       = Some (JSON_stringify
                 [mkEntry (newId (App.isoNow env) env) pwd (App.isoNow env)]).
Proof.
  intros Hkey Ht Hts Hage.
  assert (Hinit : initialState true localStorage now
                  = App.mk (Opts.mk 16 true true true true) EmptyString None []).
  { unfold initialState, loadHistory. rewrite Hkey. reflexivity. }
  destruct (generatePassword_spec (Opts.mk 16 true true true true) (App.random env)
              eq_refl Ht) as (pwd & t' & Hrun & Hlen & _).
  assert (Hkeep : keepEntry (App.dateNow env) (newEntry env pwd) = true).
  { apply keepEntry_true. exists ts. split; [exact Hts | exact Hage]. }
  assert (Hstate : handleGenerate env (initialState true localStorage now)
                   = App.mk (Opts.mk 16 true true true true) pwd None
                       [newEntry env pwd]).
  { rewrite Hinit. unfold handleGenerate. cbn [App.options App.history].
    rewrite Hrun. cbn [fst]. f_equal.
    unfold pruneOldPasswords. cbn [List.filter]. rewrite Hkeep. reflexivity. }
  exists pwd. split; [exact Hlen|].
  unfold dispatch, mount. cbn [fst snd handle setsHistory].
  rewrite Hstate. rewrite Hinit at 1. cbn [App.options]. rewrite Hrun.
  cbn [fst]. split; [reflexivity|].
  unfold persistEffect, saveHistory. cbn [App.history].
  apply lookup_insert_eq.
Qed.

(** X21: what does not change the history does not write: a [Generate]
    that fails for want of a class, a change of the length and a checkbox
    leave the store and the history as they were. *)
Theorem quiet_events_write_nothing (hasWindow : bool) (s : App.State)
    (localStorage : gmap string string) (ev : event) :
  match ev with
  | Generate _ => anyClass (App.options s) = false
  | Delete _ => False
  | LengthChange _ | Check _ _ => True
  end ->
  snd (dispatch hasWindow ev (s, localStorage)) = localStorage
  /\ App.history (fst (dispatch hasWindow ev (s, localStorage))) = App.history s.
Proof.
  intros Hev. unfold dispatch. cbn [fst snd].
  assert (Hquiet : setsHistory ev s = false).
  { destruct ev as [env | id0 | value | which checked]; simpl;
      [|destruct Hev | reflexivity | reflexivity].
    rewrite generatePassword_no_class by exact Hev. reflexivity. }
  rewrite Hquiet. split; [reflexivity | apply quiet_event_history, Hquiet].
Qed.
End FirstUse.

(** ** The further properties on the reference host *)

Section MoreOnRefHost.
#[local] Existing Instance RefHost.host.

Lemma getRandomInt_in_range_witness :
  0 < 86 < 2 ^ 53
  /\ exists i, fst (getRandomInt 86 (Sample.draws 17)) = Num i /\ 0 <= i < 86
               /\ forall n, snd (getRandomInt 86 (Sample.draws 17)) n
                            = Sample.draws 17 (S n).
Proof.
  assert (Hmax : 0 < 86 < 2 ^ 53) by lia.
  split; [exact Hmax|].
  exact (getRandomInt_in_range 86 (Sample.draws 17) Hmax (draws_ok 17)).
Defined.


Lemma disabled_class_absent_witness :
  fst (generatePassword (Sample.upperOnly 8) (Sample.draws 17)) = Ok "YCIFSIGM"
  /\ In "Y"%char (list_ascii_of_string "YCIFSIGM")
  /\ (memberOf "Y" LOWERCASE = true -> Opts.useLowercase (Sample.upperOnly 8) = true).
Proof.
  assert (Hrun : fst (generatePassword (Sample.upperOnly 8) (Sample.draws 17))
                 = Ok "YCIFSIGM") by (vm_compute; reflexivity).
  assert (Hin : In "Y"%char (list_ascii_of_string "YCIFSIGM")) by (left; reflexivity).
  split; [exact Hrun|]. split; [exact Hin|].
  destruct (disabled_class_absent (Sample.upperOnly 8) (Sample.draws 17) "YCIFSIGM"
              "Y"%char (draws_ok 17) Hrun Hin) as (_ & Hlower & _).
  exact Hlower.
Defined.

Lemma prune_at_later_time_witness :
  Sample.startup <= Sample.now
  /\ pruneOldPasswords Sample.now
       (pruneOldPasswords Sample.startup [Sample.recent; Sample.expired; Sample.latest])
     = pruneOldPasswords Sample.now [Sample.recent; Sample.expired; Sample.latest].
Proof.
  assert (Hle : Sample.startup <= Sample.now) by (vm_compute; discriminate).
  split; [exact Hle|].
  destruct (prune_at_later_time Sample.startup Sample.now
              [Sample.recent; Sample.expired; Sample.latest] Hle) as [Heq _].
  exact Heq.
Defined.



Lemma handleGenerate_success_witness :
  let s := Sample.stateWith (Sample.allClasses 16) [Sample.latest; Sample.recent] in
  fst (generatePassword (App.options s) (App.random Sample.envC))
  = Ok "MJOTQeSoEzG9I_K."
  /\ App.currentPassword (handleGenerate Sample.envC s) = "MJOTQeSoEzG9I_K."
  /\ App.error (handleGenerate Sample.envC s) = None.
Proof.
  intros s.
  assert (Hok : fst (generatePassword (App.options s) (App.random Sample.envC))
                = Ok "MJOTQeSoEzG9I_K.") by (vm_compute; reflexivity).
  split; [exact Hok|].
  destruct (handleGenerate_success Sample.envC s _ Hok) as (Hpwd & Herr & _).
  split; [exact Hpwd | exact Herr].
Defined.

Lemma new_entry_first_witness :
  let s := Sample.stateWith (Sample.allClasses 16) [Sample.latest; Sample.recent] in
  fst (generatePassword (App.options s) (App.random Sample.envC))
  = Ok "MJOTQeSoEzG9I_K."
  /\ keepEntry (App.dateNow Sample.envC) (newEntry Sample.envC "MJOTQeSoEzG9I_K.") = true
  /\ App.history (handleGenerate Sample.envC s)
     = newEntry Sample.envC "MJOTQeSoEzG9I_K."
       :: sortByNewest (pruneOldPasswords (App.dateNow Sample.envC) (App.history s)).
Proof.
  intros s.
  assert (Hok : fst (generatePassword (App.options s) (App.random Sample.envC))
                = Ok "MJOTQeSoEzG9I_K.") by (vm_compute; reflexivity).
  assert (Hk : keepEntry (App.dateNow Sample.envC)
                 (newEntry Sample.envC "MJOTQeSoEzG9I_K.") = true)
    by (vm_compute; reflexivity).
  split; [exact Hok|]. split; [exact Hk|].
  apply (new_entry_first Sample.envC s _ Hok Hk).
  intros e [<- | [<- | []]] _; vm_compute; discriminate.
Defined.

Lemma delete_after_generate_witness :
  let s := Sample.stateWith (Sample.allClasses 16) [Sample.latest; Sample.recent] in
  fst (generatePassword (App.options s) (App.random Sample.envC))
  = Ok "MJOTQeSoEzG9I_K."
  /\ ~ In (newId (App.isoNow Sample.envC) Sample.envC) (map id (App.history s))
  /\ App.history
       (handleDelete (newId (App.isoNow Sample.envC) Sample.envC)
          (handleGenerate Sample.envC s))
     = sortByNewest (pruneOldPasswords (App.dateNow Sample.envC) (App.history s)).
Proof.
  intros s.
  assert (Hok : fst (generatePassword (App.options s) (App.random Sample.envC))
                = Ok "MJOTQeSoEzG9I_K.") by (vm_compute; reflexivity).
  assert (Hfresh : ~ In (newId (App.isoNow Sample.envC) Sample.envC)
                        (map id (App.history s))).
  { vm_compute. intuition discriminate. }
  split; [exact Hok|]. split; [exact Hfresh|].
  exact (delete_after_generate Sample.envC s _ Hok Hfresh).
Defined.


Lemma reload_gives_pruned_history_witness :
  let w := runWorld true [Generate Sample.envA; Generate Sample.envC]
             (mount true ∅ Sample.startup) in
  JSON_parse (JSON_stringify (App.history (fst w))) = Some (App.history (fst w))
  /\ loadHistory (snd w) Sample.now = App.history (fst w).
Proof.
  intros w.
  assert (Hround : JSON_parse (JSON_stringify (App.history (fst w)))
                   = Some (App.history (fst w))) by (vm_compute; reflexivity).
  assert (Hne : JSON_stringify (App.history (fst w)) <> EmptyString)
    by (vm_compute; discriminate).
  split; [exact Hround|].
  destruct (reload_gives_pruned_history ∅ Sample.startup
              [Generate Sample.envA; Generate Sample.envC] Sample.now Hround Hne)
    as [_ Hsame].
  apply Hsame. intros e He. vm_compute in He.
  destruct He as [<- | [<- | []]]; vm_compute; reflexivity.
Defined.

Lemma distinct_stamps_distinct_ids_witness :
  let evs := [Generate Sample.envA; Delete "none"; Generate Sample.envC] in
  List.NoDup (stamps evs)
  /\ List.Forall (fun stamp => String.length stamp = 24%nat) (stamps evs)
  /\ List.NoDup (map id (App.history (run evs (initialState true ∅ Sample.startup)))).
Proof.
  intros evs.
  assert (Hnd : List.NoDup (stamps evs)).
  { repeat constructor; simpl; intuition discriminate. }
  assert (Hlen : List.Forall (fun stamp => String.length stamp = 24%nat) (stamps evs)).
  { repeat constructor. }
  split; [exact Hnd|]. split; [exact Hlen|].
  exact (distinct_stamps_distinct_ids true ∅ Sample.startup evs 24 eq_refl Hnd Hlen).
Defined.

Lemma first_generate_witness :
  Date_getTime (App.isoNow Sample.envA) = Num 1793534400000
  /\ App.dateNow Sample.envA - 1793534400000 <= MAX_AGE_MS
  /\ exists pwd,
       String.length pwd = 16%nat
       /\ fst (dispatch true (Generate Sample.envA) (mount true ∅ Sample.startup))
          = App.mk (Opts.mk 16 true true true true) pwd None
              [mkEntry (newId (App.isoNow Sample.envA) Sample.envA) pwd
                 (App.isoNow Sample.envA)]
       /\ snd (dispatch true (Generate Sample.envA) (mount true ∅ Sample.startup))
            !! STORAGE_KEY
          = Some (JSON_stringify
                    [mkEntry (newId (App.isoNow Sample.envA) Sample.envA) pwd
                       (App.isoNow Sample.envA)]).
Proof.
  assert (Hts : Date_getTime (App.isoNow Sample.envA) = Num 1793534400000)
    by (vm_compute; reflexivity).
  assert (Hage : App.dateNow Sample.envA - 1793534400000 <= MAX_AGE_MS)
    by (vm_compute; discriminate).
  split; [exact Hts|]. split; [exact Hage|].
  exact (first_generate ∅ Sample.startup Sample.envA 1793534400000 eq_refl
           (draws_ok 17) Hts Hage).
Defined.

Lemma quiet_events_write_nothing_witness :
  anyClass (App.options (Sample.stateWith (Sample.noClass 16) [Sample.latest])) = false
  /\ snd (dispatch true (Generate Sample.envA)
            (Sample.stateWith (Sample.noClass 16) [Sample.latest], ∅))
     = ∅.
Proof.
  split; [reflexivity|].
  destruct (quiet_events_write_nothing true
              (Sample.stateWith (Sample.noClass 16) [Sample.latest]) ∅
              (Generate Sample.envA) eq_refl) as [Hstore _].
  exact Hstore.
Defined.
End MoreOnRefHost.
